(** * NER_NLP_PROJECT: the narration classifiers and the upload pipeline of app.py

    A shallow embedding of [app.py] and the properties of its three narration
    heuristics, of its column total and of the control flow of [main].

    Python text is a sequence of code points.  The model's alphabet is the
    first 256 code points (Latin-1), carried by [ascii]; the character tables
    below are Python's own for that range. *)

From Stdlib Require Import Bool Arith Lia List ZArith.
From Stdlib Require Import Strings.Ascii Strings.String Numbers.DecimalString.
Import ListNotations.
Open Scope list_scope.
Open Scope string_scope.

(** ** Character tables *)

Module Chars.

Definition code (c : ascii) : nat := nat_of_ascii c.

Definition between (lo hi : nat) (c : ascii) : bool :=
  ((lo <=? code c) && (code c <=? hi))%nat.

(** [[A-Z]] of both patterns: the 26 ASCII capitals only. *)
Definition is_upper (c : ascii) : bool := between 65 90 c.

(** [\s] on a [str] pattern is [str.isspace]: TAB..CR, FS..US, SPACE, and
    U+0085, U+00A0. *)
Definition is_space (c : ascii) : bool :=
  between 9 13 c || between 28 32 c
  || (code c =? 133)%nat || (code c =? 160)%nat.

(** [\w] on a [str] pattern is alphanumeric-or-underscore, alphanumeric in the
    Unicode sense: besides [0-9A-Za-z_] the Latin-1 letters and the
    superscript digits and fractions. *)
Definition is_word (c : ascii) : bool :=
  between 48 57 c || between 65 90 c || (code c =? 95)%nat
  || between 97 122 c
  || (code c =? 170)%nat || (code c =? 178)%nat || (code c =? 179)%nat
  || (code c =? 181)%nat
  || between 185 186 c || between 188 190 c
  || between 192 214 c || between 216 246 c || between 248 255 c.

(** [str.lower] on one code point: the capitals A-Z, U+00C0..U+00D6 and
    U+00D8..U+00DE move up by 32, everything else stays. *)
Definition lower_char (c : ascii) : ascii :=
  if between 65 90 c || between 192 214 c || between 216 222 c
  then ascii_of_nat (code c + 32) else c.

End Chars.
Import Chars.

(** ** Strings *)

Fixpoint lower (s : string) : string :=
  match s with
  | "" => ""
  | String c s' => String (lower_char c) (lower s')
  end.

Fixpoint starts_with (t s : string) : bool :=
  match t, s with
  | "", _ => true
  | String a t', String b s' => Ascii.eqb a b && starts_with t' s'
  | String _ _, "" => false
  end.

(** [sub in s] of Python: [sub] starts at some offset of [s]. *)
Fixpoint contains (sub s : string) : bool :=
  starts_with sub s ||
  match s with
  | "" => false
  | String _ s' => contains sub s'
  end.

Fixpoint take (n : nat) (s : string) : string :=
  match n, s with
  | S n', String c s' => String c (take n' s')
  | _, _ => ""
  end.

Fixpoint last_char (p : option ascii) (s : string) : option ascii :=
  match s with
  | "" => p
  | String c s' => last_char (Some c) s'
  end.

(** ** The backtracking matcher of [re] *)

Module Re.

Inductive regex : Type :=
| Eps
| Chr (c : ascii)
| Cls (f : ascii -> bool)
| Bnd
| Cat (r1 r2 : regex)
| Alt (r1 r2 : regex)
| Plus (r : regex).

(** A cursor is a position in the subject: the code point before it (none at
    the start of the text) and the text that remains. *)
Definition cursor : Type := (option ascii * string)%type.

Definition rest (st : cursor) : string := snd st.

Definition word_before (p : option ascii) : bool :=
  match p with Some c => is_word c | None => false end.

Definition word_after (s : string) : bool :=
  match s with String c _ => is_word c | "" => false end.

(** [\b]: exactly one side of the position is a word character. *)
Definition at_boundary (st : cursor) : bool :=
  xorb (word_before (fst st)) (word_after (snd st)).

(** One greedy repetition: run the body, then as many further rounds as
    possible, and only then stop here.  A round that consumed nothing is not
    repeated. *)
Fixpoint plus_loop (body : cursor -> list cursor) (fuel : nat) (st : cursor)
  : list cursor :=
  match fuel with
  | 0 => []
  | S fuel' =>
      flat_map
        (fun st' =>
           (if (length (rest st') <? length (rest st))%nat
            then plus_loop body fuel' st' else []) ++ [st'])%list
        (body st)
  end.

(** [rmatch r st]: every way [r] can match starting at [st], as the cursor
    where the match ends, in the order in which the backtracking engine tries
    them.  The engine commits to the first that lets the rest succeed. *)
Fixpoint rmatch (r : regex) (st : cursor) : list cursor :=
  match r with
  | Eps => [st]
  | Chr c =>
      match snd st with
      | String a s' => if Ascii.eqb a c then [(Some a, s')] else []
      | "" => []
      end
  | Cls f =>
      match snd st with
      | String a s' => if f a then [(Some a, s')] else []
      | "" => []
      end
  | Bnd => if at_boundary st then [st] else []
  | Cat r1 r2 => flat_map (rmatch r2) (rmatch r1 st)
  | Alt r1 r2 => (rmatch r1 st ++ rmatch r2 st)%list
  | Plus r1 => plus_loop (rmatch r1) (S (length (rest st))) st
  end.

Fixpoint lit (t : string) : regex :=
  match t with
  | "" => Eps
  | String c "" => Chr c
  | String c t' => Cat (Chr c) (lit t')
  end.

(** The text matched at the cursor, if the pattern matches there. *)
Definition match_at (r : regex) (st : cursor) : option string :=
  match rmatch r st with
  | st' :: _ => Some (take (length (rest st) - length (rest st')) (rest st))
  | [] => None
  end.

(** [re.findall] for a pattern without groups: the matched texts, scanning
    left to right, each search starting where the previous match ended.
    [skip] counts the code points still covered by the last match.  A match
    of the empty text is recorded and the scan moves on by one code point;
    neither pattern of app.py can match the empty text. *)
Fixpoint scan (r : regex) (p : option ascii) (s : string) (skip : nat)
  : list string :=
  match skip with
  | S k =>
      match s with
      | String c s' => scan r (Some c) s' k
      | "" => []
      end
  | 0 =>
      match match_at r (p, s) with
      | Some m =>
          m :: match s with
               | String c s' => scan r (Some c) s' (pred (length m))
               | "" => []
               end
      | None =>
          match s with
          | String c s' => scan r (Some c) s' 0
          | "" => []
          end
      end
  end.

Definition findall (r : regex) (s : string) : list string := scan r None s 0.

End Re.
Import Re.

(** ** Python values and exceptions *)

(** The values a narration or amount cell holds: a missing cell ([None], or
    the float NaN pandas puts there), an integer, or text.  Other scalars a
    sheet can hold (finite floats, booleans, dates) are not modelled. *)
Inductive pyval : Type :=
| PyNone
| PyNaN
| PyInt (z : Z)
| PyStr (s : string).

Inductive exn : Type :=
| TypeError (msg : string)
| AttributeError (msg : string)
| NameError (name : string)
| UnboundLocalError (name : string)
| KeyError (key : string)
| IndexError (msg : string)
| ValueError (msg : string)
| LibraryError (msg : string).

Inductive result (A : Type) : Type :=
| OK (a : A)
| Err (e : exn).
Arguments OK {A} a.
Arguments Err {A} e.

Definition rbind {A B} (m : result A) (k : A -> result B) : result B :=
  match m with
  | OK a => k a
  | Err e => Err e
  end.

Notation "x <- m ;; k" := (rbind m (fun x => k))
  (at level 61, m at next level, right associativity).

(** [pd.notnull] on a scalar. *)
Definition notnull (v : pyval) : bool :=
  match v with
  | PyNone | PyNaN => false
  | _ => true
  end.

Definition is_text (v : pyval) : bool :=
  match v with
  | PyStr _ => true
  | _ => false
  end.

Definition is_int (v : pyval) : bool :=
  match v with
  | PyInt _ => true
  | _ => false
  end.

Definition is_missing (v : pyval) : bool := negb (notnull v).

(** [str(v)]. *)
Definition py_str (v : pyval) : string :=
  match v with
  | PyNone => "None"
  | PyNaN => "nan"
  | PyInt z => NilZero.string_of_int (Z.to_int z)
  | PyStr s => s
  end.

(** [re.findall(pattern, v)]: only text can be searched. *)
Definition re_findall (r : regex) (v : pyval) : result (list string) :=
  match v with
  | PyStr s => OK (findall r s)
  | _ => Err (TypeError "expected string or bytes-like object")
  end.

(** [v.lower()]: a method of [str] only. *)
Definition str_lower (v : pyval) : result string :=
  match v with
  | PyStr s => OK (lower s)
  | _ => Err (AttributeError "lower")
  end.

(** ** app.py, lines 22-47 *)

Definition handle_nan (narration : pyval) : pyval :=
  if notnull narration then PyStr (py_str narration) else PyStr "".

Definition upper_cls : regex := Cls is_upper.
Definition space_cls : regex := Cls is_space.

(** [\b(?:[A-Z]+\s)+[A-Z]+\b] *)
Definition name_re : regex :=
  Cat Bnd
      (Cat (Plus (Cat (Plus upper_cls) space_cls))
           (Cat (Plus upper_cls) Bnd)).

(** [(?:UPI|IMPS|NEFT|RTGS)\b] *)
Definition method_re : regex :=
  Cat (Alt (lit "UPI") (Alt (lit "IMPS") (Alt (lit "NEFT") (lit "RTGS"))))
      Bnd.

Definition first_or_none (l : list string) : option string :=
  match l with
  | x :: _ => Some x
  | [] => None
  end.

Definition extract_sender_receiver_name (narration : pyval)
  : result (option string) :=
  names <- re_findall name_re (handle_nan narration) ;;
  OK (first_or_none names).

Definition extract_payment_method (narration : pyval)
  : result (option string) :=
  methods <- re_findall method_re (handle_nan narration) ;;
  OK (first_or_none methods).

Definition extract_payment_platform (narration : pyval)
  : result (option string) :=
  narration <- str_lower (handle_nan narration) ;;
  if contains "phone pe" narration || contains "@ybl" narration
     || contains "@axl" narration
  then OK (Some "PhonePe")
  else if contains "paytm" narration then OK (Some "Paytm")
  else if contains "bharatpe" narration then OK (Some "Bharat Pay")
  else if contains "cash wdl" narration then OK (Some "ATM")
  else if contains "@ok" narration then OK (Some "Google Pay")
  else OK None.

(** ** app.py, lines 22-47, on what [apply] hands over

    [Series.apply] hands a classifier one cell at a time.  When the header
    repeats the label Narration, [df['Narration']] is a frame, and
    [DataFrame.apply] hands the classifier each of its columns whole. *)
Inductive pyobj : Type :=
| Cell (v : pyval)
| Column (cells : list pyval).

(** [pd.notnull(o)] answers for a column with a column of booleans, and
    Python refuses to take that as the condition of an [if]. *)
Definition handle_nan_object (o : pyobj) : result pyval :=
  match o with
  | Cell v => OK (handle_nan v)
  | Column _ => Err (ValueError "The truth value of a Series is ambiguous")
  end.

Definition extract_sender_receiver_name_object (o : pyobj)
  : result (option string) :=
  narration <- handle_nan_object o ;;
  names <- re_findall name_re narration ;;
  OK (first_or_none names).

Definition extract_payment_method_object (o : pyobj)
  : result (option string) :=
  narration <- handle_nan_object o ;;
  methods <- re_findall method_re narration ;;
  OK (first_or_none methods).

Definition extract_payment_platform_object (o : pyobj)
  : result (option string) :=
  narration <- handle_nan_object o ;;
  narration <- str_lower narration ;;
  if contains "phone pe" narration || contains "@ybl" narration
     || contains "@axl" narration
  then OK (Some "PhonePe")
  else if contains "paytm" narration then OK (Some "Paytm")
  else if contains "bharatpe" narration then OK (Some "Bharat Pay")
  else if contains "cash wdl" narration then OK (Some "ATM")
  else if contains "@ok" narration then OK (Some "Google Pay")
  else OK None.

Definition tab : ascii := ascii_of_nat 9.
Definition nl : ascii := ascii_of_nat 10.

(** ** Data frames *)

(** A frame is held by column: each label with its cells, one per row.
    Labels are cells of the header row, so any value can be one; the labels
    of a frame are taken to be distinct. *)
Record DataFrame : Type := mkFrame
  { nrows : nat;
    columns : list (pyval * list pyval) }.

Definition label_is (name : string) (l : pyval) : bool :=
  match l with
  | PyStr s => String.eqb s name
  | _ => false
  end.

(** [name in df.columns] *)
Definition has_column (name : string) (df : DataFrame) : bool :=
  existsb (fun c => label_is name (fst c)) (columns df).

(** The number of columns that carry the label [name]. *)
Definition label_count (name : string) (df : DataFrame) : nat :=
  List.length (filter (fun c => label_is name (fst c)) (columns df)).

(** [df[name]] for a label that one column carries; with a repeated label
    pandas answers with a frame of all those columns, which is not modelled:
    the first of them stands for it here. *)
Definition getitem (df : DataFrame) (name : string) : result (list pyval) :=
  match find (fun c => label_is name (fst c)) (columns df) with
  | Some c => OK (snd c)
  | None => Err (KeyError name)
  end.

Fixpoint set_column (name : string) (series : list pyval)
  (cols : list (pyval * list pyval)) : list (pyval * list pyval) :=
  match cols with
  | [] => [(PyStr name, series)]
  | c :: cols' =>
      if label_is name (fst c) then (fst c, series) :: cols'
      else c :: set_column name series cols'
  end.

(** [df[name] = series]: the column is replaced where it stands, or added
    last. *)
Definition setitem (df : DataFrame) (name : string) (series : list pyval)
  : DataFrame :=
  mkFrame (nrows df) (set_column name series (columns df)).

Definition cell_of (o : option string) : pyval :=
  match o with
  | Some s => PyStr s
  | None => PyNone
  end.

(** [series.apply(f)]: [f] on every cell in turn; the first exception
    ends it. *)
Fixpoint series_apply (f : pyval -> result (option string))
  (series : list pyval) : result (list pyval) :=
  match series with
  | [] => OK []
  | v :: series' =>
      o <- f v ;;
      rest <- series_apply f series' ;;
      OK (cell_of o :: rest)
  end.

(** [a + b] of Python on two cell values, which is how a column of objects
    adds its cells: integers without bound, texts by joining. *)
Definition py_add (a b : pyval) : result pyval :=
  match a, b with
  | PyInt x, PyInt y => OK (PyInt (x + y))
  | PyStr x, PyStr y => OK (PyStr (x ++ y))
  | _, _ => Err (TypeError "unsupported operand type(s) for +")
  end.

Fixpoint reduce_add (acc : pyval) (l : list pyval) : result pyval :=
  match l with
  | [] => OK acc
  | v :: l' => acc' <- py_add acc v ;; reduce_add acc' l'
  end.

Definition fill_zero (v : pyval) : pyval :=
  if notnull v then v else PyInt 0.

(** The machine numbers of a numeric column.  A column of integers is held
    as int64, whose sums wrap around; a column of integers with a gap is held
    as float64, where an integer is the nearest float (ties to the even
    mantissa) and every sum is rounded in the same way. *)
Definition int64_wrap (z : Z) : Z :=
  ((z + 9223372036854775808) mod 18446744073709551616
   - 9223372036854775808)%Z.

Definition round53 (z : Z) : Z :=
  let a := Z.abs z in
  if (a <? 9007199254740992)%Z then z
  else
    let e := (Z.log2 a - 52)%Z in
    let q := (a / 2 ^ e)%Z in
    let r := (a mod 2 ^ e)%Z in
    let half := (2 ^ (e - 1))%Z in
    let q' := if (r <? half)%Z then q
              else if (half <? r)%Z then (q + 1)%Z
              else if Z.even q then q else (q + 1)%Z in
    (Z.sgn z * (q' * 2 ^ e))%Z.

Definition int_of (v : pyval) : Z :=
  match v with
  | PyInt z => z
  | _ => 0%Z
  end.

(** The sum of two floats that hold integers. *)
Definition float_add (x y : Z) : Z := round53 (x + y).

(** [values.sum()] of numpy on an array of floats, its pairwise summation.
    Fewer than eight floats are added from the left.  Up to 128 floats are
    added in eight lanes, lane j taking the floats at the places j, 8 + j,
    16 + j, ... of the whole blocks of eight; the lanes are added two by
    two, and the floats after the last whole block are added to that from
    the left.  A longer array is cut in two near its middle, at a multiple of
    eight, and the sums of the two parts are added. *)
Definition sum_from (acc : Z) (l : list Z) : Z := fold_left float_add l acc.

Definition add_block (r block : list Z) : list Z :=
  map (fun p => float_add (fst p) (snd p)) (combine r block).

Fixpoint add_lanes (r l : list Z) {struct l} : list Z * list Z :=
  match l with
  | a0 :: a1 :: a2 :: a3 :: a4 :: a5 :: a6 :: a7 :: l' =>
      add_lanes (add_block r [a0; a1; a2; a3; a4; a5; a6; a7]) l'
  | _ => (r, l)
  end.

Definition sum_lanes (r : list Z) : Z :=
  match r with
  | [r0; r1; r2; r3; r4; r5; r6; r7] =>
      float_add (float_add (float_add r0 r1) (float_add r2 r3))
                (float_add (float_add r4 r5) (float_add r6 r7))
  | _ => 0%Z
  end.

(** The cut of a long array halves it each time: as much fuel as the array
    has floats is enough. *)
Fixpoint pairwise_sum (fuel : nat) (a : list Z) : Z :=
  let n := List.length a in
  if (n <? 8)%nat then sum_from 0 a
  else if (n <=? 128)%nat then
    let (r, rest) := add_lanes (firstn 8 a) (skipn 8 a) in
    sum_from (sum_lanes r) rest
  else
    match fuel with
    | 0 => 0%Z
    | S fuel' =>
        let n2 := (n / 2 - (n / 2) mod 8)%nat in
        float_add (pairwise_sum fuel' (firstn n2 a))
                  (pairwise_sum fuel' (skipn n2 a))
    end.

(** [series.sum()] with the defaults of pandas ([skipna=True],
    [min_count=0]), by the kind of the column.  A column of integers is added
    up in int64.  A column of integers with missing cells is a column of
    floats: the missing cells count as 0 and numpy adds the floats up.  A
    column with text in it is a column of objects: its missing cells are
    replaced by 0 and the cells are added from the left with their own [+]
    (pandas before 3.0; from 3.0 on a column of text and missing cells only
    skips the missing cells).

    A total is given by its value, whether Python holds it as an int or as a
    float, and integer cells are taken to lie in the int64 range. *)
Definition series_sum (series : list pyval) : result pyval :=
  if existsb is_text series then
    match map fill_zero series with
    | [] => OK (PyInt 0)
    | v :: l => reduce_add v l
    end
  else if existsb is_missing series then
    OK (PyInt (float_add 0
                 (pairwise_sum (List.length series)
                    (map (fun v => round53 (int_of v)) series))))
  else
    OK (PyInt (fold_left (fun acc v => int64_wrap (acc + int_of v)%Z)
                         series 0%Z)).

(** How pandas holds a column of a table built from rows.  A column of
    integers with gaps and no text becomes a column of floats: every gap is
    NaN and every integer the nearest float.  Any other column (integers
    only, text in it, or nothing but gaps) keeps its values (pandas before
    3.0; from 3.0 on a gap in a column of text is held as NaN).  A float is
    given by the integer it equals. *)
Definition as_float (v : pyval) : pyval :=
  match v with
  | PyInt z => PyInt (round53 z)
  | PyStr s => PyStr s
  | _ => PyNaN
  end.

Definition numbers_with_gaps (col : list pyval) : bool :=
  negb (existsb is_text col) && existsb is_int col && existsb is_missing col.

Definition infer_column (col : list pyval) : list pyval :=
  if numbers_with_gaps col then map as_float col else col.

(** [pd.DataFrame(rows, columns=header)] on a list of row tuples: the rows
    are laid out as a table as wide as the widest of them, a shorter row
    padded with None; the header must have one label for each column of that
    table, unless there are no rows at all. *)
Definition column_at (rows : list (list pyval)) (j : nat) : list pyval :=
  map (fun row => nth j row PyNone) rows.

Definition width (rows : list (list pyval)) : nat :=
  fold_right (fun row w => Nat.max (List.length row) w) 0 rows.

Definition pd_DataFrame (rows : list (list pyval)) (header : list pyval)
  : result DataFrame :=
  if match rows with
     | [] => true
     | _ => (width rows =? List.length header)%nat
     end
  then OK (mkFrame (List.length rows)
             (map (fun jl => (snd jl, infer_column (column_at rows (fst jl))))
                  (combine (seq 0 (List.length header)) header)))
  else Err (ValueError "columns passed, passed data had a different number").

(** [pd.DataFrame({'Narration': [text], 'Named_Entities': [entities]})] *)
Definition document_frame (text entities : pyval) : DataFrame :=
  mkFrame 1 [(PyStr "Narration", [text]); (PyStr "Named_Entities", [entities])].

(** ** app.py, lines 49-62: the document text extractors

    A PDF is given by the embedded text of its pages in physical order
    ([page.get_text()] for [load_page(0)], [load_page(1)], ...), a
    word-processing document by the text of its paragraphs in order. *)

Definition extract_text_from_pdf (pages : list string) : string :=
  fold_left (fun text page => text ++ page) pages "".

Definition extract_text_from_docx (paragraphs : list string) : string :=
  fold_left (fun text paragraph => text ++ (paragraph ++ String nl ""))
            paragraphs "".

(** ** app.py, lines 70-160: the pipeline *)

Record upload : Type := mkUpload
  { file_type : string;
    file_bytes : string }.

(** What the page shows, in the order of the calls on [st]. *)
Inductive event : Type :=
| StTitle (text : string)
| StWriteType (label type : string)
| StError (msg : string)
| StErrorProcessing (e : exn)
| StSubheader (text : string)
| StWriteFrame (df : DataFrame)
| StTotalAmount (total : pyval).

(** A computation of [main]: what it has shown so far, and a value or the
    exception that ended it. *)
Definition prog (A : Type) : Type := (list event * result A)%type.

Definition pret {A} (a : A) : prog A := ([], OK a).

Definition pbind {A B} (m : prog A) (k : A -> prog B) : prog B :=
  match snd m with
  | OK a => ((fst m ++ fst (k a))%list, snd (k a))
  | Err e => (fst m, Err e)
  end.

Definition emit (e : event) : prog unit := ([e], OK tt).

Definition plift {A} (r : result A) : prog A := ([], r).

Notation "x <-- m ;;; k" := (pbind m (fun x => k))
  (at level 61, m at next level, right associativity).
Notation "m ;;; k" := (pbind m (fun _ => k))
  (at level 61, right associativity).

(** [try: body except Exception as e: st.error(f'Error processing file:
    {str(e)}')] *)
Definition try_except (body : prog unit) : list event :=
  match snd body with
  | OK _ => fst body
  | Err e => (fst body ++ [StErrorProcessing e])%list
  end.

(** Reading the local variable [name]: it must have been assigned on the
    path taken. *)
Definition load_local {A} (name : string) (v : option A) : result A :=
  match v with
  | Some a => OK a
  | None => Err (UnboundLocalError name)
  end.

(** Calling the module-level name [name]: it must be bound in the module. *)
Definition call_global {A B} (name : string) (binding : option (A -> result B))
  (a : A) : result B :=
  match binding with
  | Some f => f a
  | None => Err (NameError name)
  end.

(** app.py has no [def] and no import that binds [process_pdf_file] or
    [process_docx_file]; [main] is their only mention. *)
Definition process_pdf_file : option (upload -> result (pyval * pyval)) := None.
Definition process_docx_file : option (upload -> result (pyval * pyval)) := None.

Definition csv_type : string := "text/csv".
Definition xlsx_type : string :=
  "application/vnd.openxmlformats-officedocument.spreadsheetml.sheet".
Definition pdf_type : string := "application/pdf".
Definition docx_type : string :=
  "application/vnd.openxmlformats-officedocument.wordprocessingml.document".

(** Lines 108-111. *)
Definition total_amount (df : DataFrame) : result pyval :=
  if has_column "Amount" df
  then amount <- getitem df "Amount" ;; series_sum amount
  else OK (PyStr "N/A (Amount column not found)").

(** Lines 113-115. *)
Definition enrich (df : DataFrame) : result DataFrame :=
  narration <- getitem df "Narration" ;;
  name <- series_apply extract_sender_receiver_name narration ;;
  let df := setitem df "Name" name in
  narration <- getitem df "Narration" ;;
  method <- series_apply extract_payment_method narration ;;
  let df := setitem df "Payment_Method" method in
  narration <- getitem df "Narration" ;;
  platform <- series_apply extract_payment_platform narration ;;
  OK (setitem df "Payment_Platform" platform).

Section Pipeline.

(** The parsers of pandas and openpyxl are taken as given:
    [read_csv bytes] is [pd.read_csv(io.StringIO(bytes.decode('utf-8')))],
    [sheet_rows bytes] the rows of
    [openpyxl.load_workbook(file).active.iter_rows(values_only=True)]. *)
Variable read_csv : string -> result DataFrame.
Variable sheet_rows : string -> result (list (list pyval)).

(** Lines 70-77. *)
Definition process_excel_file (file : upload) : result DataFrame :=
  data <- sheet_rows (file_bytes file) ;;
  match data with
  | [] => Err (IndexError "list index out of range")
  | header :: body => pd_DataFrame body header
  end.

(** Lines 88-105: the frame bound to [df], if the branch taken binds it. *)
Definition load_frame (uploaded_file : upload) : prog (option DataFrame) :=
  if String.eqb (file_type uploaded_file) csv_type then
    df <-- plift (read_csv (file_bytes uploaded_file)) ;;;
    pret (Some df)
  else if String.eqb (file_type uploaded_file) xlsx_type then
    df <-- plift (process_excel_file uploaded_file) ;;;
    pret (Some df)
  else if String.eqb (file_type uploaded_file) pdf_type then
    r <-- plift (call_global "process_pdf_file" process_pdf_file uploaded_file) ;;;
    pret (Some (document_frame (fst r) (snd r)))
  else if String.eqb (file_type uploaded_file) docx_type then
    r <-- plift (call_global "process_docx_file" process_docx_file uploaded_file) ;;;
    pret (Some (document_frame (fst r) (snd r)))
  else
    emit (StError "Unsupported file format") ;;;
    pret None.

(** Lines 86-122, the body of the [try].  The charts and the download
    buttons that follow line 122 draw from [df] and are not modelled. *)
Definition main_body (uploaded_file : upload) : prog unit :=
  emit (StWriteType "Uploaded File Type:" (file_type uploaded_file)) ;;;
  df <-- load_frame uploaded_file ;;;
  df <-- plift (load_local "df" df) ;;;
  total <-- plift (total_amount df) ;;;
  df <-- plift (enrich df) ;;;
  emit (StSubheader "Extracted Information") ;;;
  emit (StWriteFrame df) ;;;
  emit (StTotalAmount total).

(** Lines 79-160. *)
Definition main (uploaded_file : option upload) : list event :=
  StTitle "Upload Transaction File" ::
  match uploaded_file with
  | Some f => try_except (main_body f)
  | None => []
  end.

End Pipeline.

(** ** Reading the two patterns off the text

    The definitions below say in terms of the text alone what the matcher
    finds; the theorems relate them to [rmatch]. *)

Fixpoint all_upper (s : string) : bool :=
  match s with
  | "" => true
  | String c s' => is_upper c && all_upper s'
  end.

(** A token of the name pattern: one or more capitals. *)
Definition upper_word (u : string) : Prop := u <> "" /\ all_upper u = true.

Definition upper_head (s : string) : bool :=
  match s with String c _ => is_upper c | "" => false end.

(** The ends of [[A-Z]+] at a text, longest first. *)
Fixpoint upper_ends (s : string) : list cursor :=
  match s with
  | String c s' =>
      if is_upper c then (upper_ends s' ++ [(Some c, s')])%list else []
  | "" => []
  end.

(** The end of the longest run of capitals a text starts with. *)
Fixpoint tok (s : string) : option cursor :=
  match s with
  | String c s' =>
      if is_upper c
      then match tok s' with
           | Some e => Some e
           | None => Some (Some c, s')
           end
      else None
  | "" => None
  end.

(** ... followed by one whitespace character. *)
Definition tokws (s : string) : option cursor :=
  match tok s with
  | Some (_, String w s') => if is_space w then Some (Some w, s') else None
  | _ => None
  end.

Definition ends_word (post : string) : bool := negb (word_after post).

Definition begins_word (pre : string) : bool :=
  negb (word_before (last_char None pre)).

Definition last_tok (s : string) : list cursor :=
  match tok s with
  | Some (c, r) => if ends_word r then [(c, r)] else []
  | None => []
  end.

Definition tokws_re : regex := Cat (Plus upper_cls) space_cls.
Definition runs_re : regex := Cat (Plus tokws_re) (Cat (Plus upper_cls) Bnd).

(** A run of the name pattern: two or more tokens of capitals, one
    whitespace character between neighbours. *)
Inductive name_run : string -> Prop :=
| run_two (u : string) (w : ascii) (v : string) :
    upper_word u -> is_space w = true -> upper_word v ->
    name_run (u ++ String w v)
| run_more (u : string) (w : ascii) (t : string) :
    upper_word u -> is_space w = true -> name_run t ->
    name_run (u ++ String w t).

(** [e] is what remains of [s] after a run that ends at a word boundary. *)
Definition run_end (s e : string) : Prop :=
  exists t, s = t ++ e /\ name_run t /\ ends_word e = true.

(** An occurrence of a run in [s], a word boundary on either side. *)
Definition name_occ (s pre t post : string) : Prop :=
  s = pre ++ t ++ post /\ begins_word pre = true /\ name_run t
  /\ ends_word post = true.

(** The leftmost occurrence, and the longest of those that start there. *)
Definition first_name_occ (s pre t post : string) : Prop :=
  name_occ s pre t post /\
  forall pre2 t2 post2, name_occ s pre2 t2 post2 ->
    length pre < length pre2
    \/ (length pre2 = length pre /\ length t2 <= length t).

(** A run whose separators are all the space character U+0020. *)
Inductive space_run : string -> Prop :=
| srun_two (u v : string) :
    upper_word u -> upper_word v -> space_run (u ++ String " " v)
| srun_more (u t : string) :
    upper_word u -> space_run t -> space_run (u ++ String " " t).

Fixpoint has_char (c : ascii) (s : string) : bool :=
  match s with
  | "" => false
  | String a s' => Ascii.eqb a c || has_char c s'
  end.

Fixpoint skip (n : nat) (s : string) : string :=
  match n, s with
  | S n', String _ s' => skip n' s'
  | _, _ => s
  end.

(** The name pattern can match [t] at the cursor with [pre] behind it and
    [s] ahead. *)
Definition name_here (pre s t : string) : Prop :=
  begins_word pre = true
  /\ exists post, s = t ++ post /\ name_run t /\ ends_word post = true.

Fixpoint has_upper (s : string) : bool :=
  match s with
  | "" => false
  | String c s' => is_upper c || has_upper s'
  end.

(** What follows a run cannot continue it: the text ends, or goes on with a
    character that is neither a word character nor whitespace. *)
Definition run_stop (post : string) : bool :=
  match post with
  | "" => true
  | String c _ => negb (is_word c) && negb (is_space c)
  end.

(** The tokens of the method pattern, in the order of its alternatives. *)
Definition method_tokens : list string := ["UPI"; "IMPS"; "NEFT"; "RTGS"].

(** An occurrence of a token in [s] that ends at a word boundary. *)
Definition method_occ (s pre t post : string) : Prop :=
  s = pre ++ t ++ post /\ In t method_tokens /\ ends_word post = true.

Definition first_method_occ (s pre t post : string) : Prop :=
  method_occ s pre t post /\
  forall pre2 t2 post2, method_occ s pre2 t2 post2 -> length pre <= length pre2.

(** An occurrence as a whole word: a word boundary before it as well. *)
Definition whole_word_occ (s pre t post : string) : Prop :=
  method_occ s pre t post /\ begins_word pre = true.

Definition method_here (pre s t : string) : Prop :=
  exists post, s = t ++ post /\ In t method_tokens /\ ends_word post = true.

(** The end of token [t] at the head of [s], if it is there and a word
    boundary follows. *)
Definition token_end (t s : string) : list cursor :=
  if starts_with t s
  then if ends_word (skip (length t) s)
       then [(last_char None t, skip (length t) s)] else []
  else [].

(** ** The platform rule table, as the specification words it *)

Inductive platform : Type := PhonePe | Paytm | BharatPay | ATM | GooglePay.

(** The text by which app.py returns each platform. *)
Definition platform_label (p : platform) : string :=
  match p with
  | PhonePe => "PhonePe"
  | Paytm => "Paytm"
  | BharatPay => "Bharat Pay"
  | ATM => "ATM"
  | GooglePay => "Google Pay"
  end.

(** The rules in priority order: the keywords of a rule, and its platform. *)
Definition platform_rules : list (list string * platform) :=
  [ (["phone pe"; "@ybl"; "@axl"], PhonePe);
    (["paytm"], Paytm);
    (["bharatpe"], BharatPay);
    (["cash wdl"], ATM);
    (["@ok"], GooglePay) ].

(** Two code points that differ by case at most. *)
Definition same_letter (a b : ascii) : bool :=
  Ascii.eqb (lower_char a) (lower_char b).

Fixpoint starts_with_ci (t s : string) : bool :=
  match t, s with
  | "", _ => true
  | String a t', String b s' => same_letter a b && starts_with_ci t' s'
  | String _ _, "" => false
  end.

(** [sub] occurs in [s], case ignored. *)
Fixpoint contains_ci (sub s : string) : bool :=
  starts_with_ci sub s ||
  match s with
  | "" => false
  | String _ s' => contains_ci sub s'
  end.

(** Two texts that differ by case at most. *)
Fixpoint eq_ci (s s' : string) : bool :=
  match s, s' with
  | "", "" => true
  | String a t, String b t' => same_letter a b && eq_ci t t'
  | _, _ => false
  end.

Definition rule_matches (s : string) (rule : list string * platform) : bool :=
  existsb (fun keyword => contains_ci keyword s) (fst rule).

(** The platform of the first rule, in priority order, that matches. *)
Definition classify (s : string) : option platform :=
  option_map snd (find (rule_matches s) platform_rules).

(** ** Column totals, as the specification words them *)

(** The amounts that are present in a column of cells. *)
Fixpoint present_amounts (cells : list pyval) : list Z :=
  match cells with
  | [] => []
  | PyInt z :: cells' => z :: present_amounts cells'
  | _ :: cells' => present_amounts cells'
  end.

Definition sum_Z (l : list Z) : Z := fold_right Z.add 0%Z l.

(** A cell that holds a number or nothing. *)
Definition number_or_missing (v : pyval) : bool :=
  match v with
  | PyStr _ => false
  | _ => true
  end.

(** Up to this magnitude every integer is a float64, and an int64. *)
Definition exact_float_bound : Z := 9007199254740992%Z.

(** The magnitudes of the numbers of a list, added up. *)
Definition sum_abs (l : list Z) : Z := sum_Z (map Z.abs l).

(** The magnitudes of the amounts that are present, added up. *)
Definition magnitude (cells : list pyval) : Z :=
  sum_Z (map Z.abs (present_amounts cells)).

Definition unavailable : pyval := PyStr "N/A (Amount column not found)".

(** The cell of row [i] in column [name]. *)
Definition cell (df : DataFrame) (name : string) (i : nat) : option pyval :=
  match getitem df name with
  | OK series => nth_error series i
  | Err _ => None
  end.

Definition supported (type : string) : bool :=
  String.eqb type csv_type || String.eqb type xlsx_type
  || String.eqb type pdf_type || String.eqb type docx_type.

(** A sheet whose Amount column holds a number and a text. *)
Definition text_amount_sheet : list (list pyval) :=
  [ [PyStr "Narration"; PyStr "Amount"];
    [PyStr "a"; PyInt 100];
    [PyStr "b"; PyStr "abc"] ].

(** ** Further readings of the text and of the frame *)

Fixpoint all_chars (f : ascii -> bool) (s : string) : bool :=
  match s with
  | "" => true
  | String c s' => f c && all_chars f s'
  end.

(** The characters a name is made of. *)
Definition name_char (c : ascii) : bool := is_upper c || is_space c.

(** The characters of the decimal text of an integer. *)
Definition digit_or_minus (c : ascii) : bool :=
  between 48 57 c || (code c =? 45)%nat.

(** Somewhere in the text a capital, one whitespace character and a capital
    follow each other. *)
Fixpoint has_triple (s : string) : bool :=
  match s with
  | "" => false
  | String c s' =>
      match s' with
      | String w (String d _) => is_upper c && is_space w && is_upper d
      | _ => false
      end
      || has_triple s'
  end.

(** The place of a platform in the rule table. *)
Definition rank (p : platform) : nat :=
  match p with
  | PhonePe => 1
  | Paytm => 2
  | BharatPay => 3
  | ATM => 4
  | GooglePay => 5
  end.

Definition text_of (v : pyval) : string :=
  match v with
  | PyStr s => s
  | _ => ""
  end.

(** Every column has one cell for each row. *)
Definition wf_frame (df : DataFrame) : bool :=
  forallb (fun c => (List.length (snd c) =? nrows df)%nat) (columns df).





Definition is_error (e : event) : bool :=
  match e with
  | StError _ | StErrorProcessing _ => true
  | _ => false
  end.

Definition is_frame (e : event) : bool :=
  match e with
  | StWriteFrame _ => true
  | _ => false
  end.

(** ** The csv loader, as the specification words it (section 4.2)

    app.py has no csv loader of its own: line 89 hands the decoded text to
    [pd.read_csv].  The definitions of this part follow the words of the
    specification instead. *)























(** ** Theorems *)


(** ** Character classes *)

Lemma upper_is_word (c : ascii) : is_upper c = true -> is_word c = true.
Proof.
  destruct c as [[] [] [] [] [] [] [] []]; vm_compute; congruence.
Qed.

Lemma upper_not_space (c : ascii) : is_upper c = true -> is_space c = false.
Proof.
  destruct c as [[] [] [] [] [] [] [] []]; vm_compute; congruence.
Qed.

Lemma space_not_upper (c : ascii) : is_space c = true -> is_upper c = false.
Proof.
  intros H. destruct (is_upper c) eqn:E; [|reflexivity].
  apply upper_not_space in E. congruence.
Qed.


(** ** Strings *)

Lemma append_assoc (a b c : string) : (a ++ b) ++ c = a ++ (b ++ c).
Proof. induction a; simpl; congruence. Qed.

Lemma append_nil_r (a : string) : a ++ "" = a.
Proof. induction a; simpl; congruence. Qed.

Lemma length_append (a b : string) : length (a ++ b) = length a + length b.
Proof. induction a; simpl; congruence. Qed.

Lemma take_append (a b : string) : take (length (a ++ b) - length b) (a ++ b) = a.
Proof.
  rewrite length_append. replace (length a + length b - length b) with (length a) by lia.
  induction a; simpl.
  - destruct b; reflexivity.
  - congruence.
Qed.


(** ** The repetition does not depend on its fuel *)

Lemma plus_loop_fuel (body : cursor -> list cursor) (n : nat) :
  forall m st, length (rest st) < n -> length (rest st) < m ->
  plus_loop body n st = plus_loop body m st.
Proof.
  induction n as [|n IH]; intros m st Hn Hm; [lia|].
  destruct m as [|m]; [lia|]. simpl.
  apply flat_map_ext. intros st'.
  destruct (Nat.ltb_spec (length (rest st')) (length (rest st))) as [Hlt|Hge];
    [|reflexivity].
  f_equal. apply IH; lia.
Qed.

Lemma plus_loop_S (body : cursor -> list cursor) (n : nat) (st : cursor) :
  plus_loop body (S n) st =
  flat_map (fun st' =>
              (if (length (rest st') <? length (rest st))%nat
               then plus_loop body n st' else []) ++ [st'])%list
           (body st).
Proof. reflexivity. Qed.

Lemma rmatch_plus_def (r : regex) (st : cursor) :
  rmatch (Plus r) st = plus_loop (rmatch r) (S (length (rest st))) st.
Proof. reflexivity. Qed.

Lemma rmatch_plus (r : regex) (st : cursor) :
  rmatch (Plus r) st =
  flat_map (fun st' =>
              (if (length (rest st') <? length (rest st))%nat
               then rmatch (Plus r) st' else []) ++ [st'])%list
           (rmatch r st).
Proof.
  rewrite rmatch_plus_def, plus_loop_S.
  apply flat_map_ext. intros st'.
  destruct (Nat.ltb_spec (length (rest st')) (length (rest st))) as [Hlt|Hge];
    [|reflexivity].
  f_equal. rewrite rmatch_plus_def. apply plus_loop_fuel; lia.
Qed.

Lemma rmatch_cat (r1 r2 : regex) (st : cursor) :
  rmatch (Cat r1 r2) st = flat_map (rmatch r2) (rmatch r1 st).
Proof. reflexivity. Qed.

Lemma rmatch_cls (f : ascii -> bool) (p : option ascii) (s : string) :
  rmatch (Cls f) (p, s) =
  match s with
  | String a s' => if f a then [(Some a, s')] else []
  | "" => []
  end.
Proof. reflexivity. Qed.

Lemma rmatch_bnd (st : cursor) :
  rmatch Bnd st = if at_boundary st then [st] else [].
Proof. reflexivity. Qed.

Lemma rmatch_chr (c : ascii) (p : option ascii) (s : string) :
  rmatch (Chr c) (p, s) =
  match s with
  | String a s' => if Ascii.eqb a c then [(Some a, s')] else []
  | "" => []
  end.
Proof. reflexivity. Qed.

Lemma rmatch_alt (r1 r2 : regex) (st : cursor) :
  rmatch (Alt r1 r2) st = (rmatch r1 st ++ rmatch r2 st)%list.
Proof. reflexivity. Qed.

Global Opaque rmatch.

(** ** [[A-Z]+] *)

Lemma rmatch_upper_plus (s : string) :
  forall p, rmatch (Plus upper_cls) (p, s) = upper_ends s.
Proof.
  induction s as [|c s IH]; intros p; rewrite rmatch_plus;
    unfold upper_cls at 2; rewrite rmatch_cls.
  - reflexivity.
  - simpl. destruct (is_upper c); [|reflexivity].
    unfold rest; simpl.
    replace (length s <? S (length s))%nat with true
      by (symmetry; apply Nat.ltb_lt; lia).
    rewrite IH, app_nil_r. reflexivity.
Qed.

Lemma tok_upper_head (s : string) (e : cursor) :
  tok s = Some e -> upper_head s = true.
Proof. destruct s as [|c s]; simpl; [discriminate|]. destruct (is_upper c); congruence. Qed.

Lemma tok_none (s : string) : tok s = None -> upper_head s = false.
Proof.
  destruct s as [|c s]; simpl; [reflexivity|].
  destruct (is_upper c); [|reflexivity]. destruct (tok s); discriminate.
Qed.


(** A continuation that cannot go on between two capitals sees only the end
    of the longest run. *)
Lemma flat_map_upper_ends (f : cursor -> list cursor) :
  (forall c s, is_upper c = true -> upper_head s = true -> f (Some c, s) = []) ->
  forall s, flat_map f (upper_ends s) =
            match tok s with Some e => f e | None => [] end.
Proof.
  intros Hf s. induction s as [|c s IH]; simpl; [reflexivity|].
  destruct (is_upper c) eqn:Hc; [|reflexivity].
  rewrite flat_map_app, IH. simpl. rewrite app_nil_r.
  destruct (tok s) as [e|] eqn:Ht.
  - rewrite (Hf c s Hc (tok_upper_head _ _ Ht)). apply app_nil_r.
  - reflexivity.
Qed.

Lemma tok_prev (s : string) (q : option ascii) (r : string) :
  tok s = Some (q, r) -> exists c, q = Some c /\ is_upper c = true.
Proof.
  revert q r. induction s as [|c s IH]; simpl; intros q r H; [discriminate|].
  destruct (is_upper c) eqn:Hc; [|discriminate].
  destruct (tok s) as [e|] eqn:Ht.
  - inversion H; subst. eapply IH; reflexivity.
  - inversion H; subst. eauto.
Qed.

Lemma tok_spec (s : string) (q : option ascii) (r : string) :
  tok s = Some (q, r) ->
  exists u, s = u ++ r /\ upper_word u /\ upper_head r = false.
Proof.
  revert q r. induction s as [|c s IH]; simpl; intros q r H; [discriminate|].
  destruct (is_upper c) eqn:Hc; [|discriminate].
  destruct (tok s) as [e|] eqn:Ht.
  - inversion H; subst. destruct (IH _ _ eq_refl) as (u & Hs & (Hne & Hu) & Hr).
    exists (String c u). simpl. rewrite <- Hs. repeat split; try assumption.
    + discriminate.
    + simpl. rewrite Hc. assumption.
  - inversion H; subst. exists (String c ""). simpl. repeat split.
    + discriminate.
    + simpl. rewrite Hc. reflexivity.
    + apply tok_none. assumption.
Qed.

Lemma tok_app (u r : string) :
  upper_word u -> upper_head r = false -> exists q, tok (u ++ r) = Some (q, r).
Proof.
  intros [Hne Hu] Hr. induction u as [|c u IH]; [congruence|].
  simpl in Hu. apply andb_true_iff in Hu. destruct Hu as [Hc Hu].
  simpl. rewrite Hc. destruct u as [|d u].
  - simpl. destruct (tok r) as [e|] eqn:Ht.
    + apply tok_upper_head in Ht. congruence.
    + eauto.
  - destruct IH as [q Hq]; [discriminate|assumption|].
    rewrite Hq. eauto.
Qed.

Lemma tokws_spec (s : string) (q : option ascii) (s' : string) :
  tokws s = Some (q, s') ->
  exists u w, s = u ++ String w s' /\ upper_word u /\ is_space w = true.
Proof.
  unfold tokws. destruct (tok s) as [[q0 r]|] eqn:Ht; [|discriminate].
  destruct r as [|w r]; [discriminate|].
  destruct (is_space w) eqn:Hw; [|discriminate].
  intros H; inversion H; subst.
  destruct (tok_spec _ _ _ Ht) as (u & Hs & Hu & _).
  exists u, w. auto.
Qed.

Lemma tokws_app (u : string) (w : ascii) (s' : string) :
  upper_word u -> is_space w = true ->
  tokws (u ++ String w s') = Some (Some w, s').
Proof.
  intros Hu Hw. unfold tokws.
  destruct (tok_app u (String w s') Hu) as [q Hq].
  - simpl. apply space_not_upper. assumption.
  - rewrite Hq, Hw. reflexivity.
Qed.

Lemma tokws_shorter (s : string) (q : option ascii) (s' : string) :
  tokws s = Some (q, s') -> length s' < length s.
Proof.
  intros H. destruct (tokws_spec _ _ _ H) as (u & w & -> & _ & _).
  rewrite length_append. simpl. lia.
Qed.

(** ** [[A-Z]+\s], [(?:[A-Z]+\s)+] and [[A-Z]+\b] *)

Lemma rmatch_tokws (p : option ascii) (s : string) :
  rmatch tokws_re (p, s) = match tokws s with Some e => [e] | None => [] end.
Proof.
  unfold tokws_re. rewrite rmatch_cat, rmatch_upper_plus.
  rewrite flat_map_upper_ends.
  - unfold tokws. destruct (tok s) as [[q r]|]; [|reflexivity].
    unfold space_cls. rewrite rmatch_cls. destruct r as [|w r]; [reflexivity|].
    destruct (is_space w); reflexivity.
  - intros c t Hc Ht. unfold space_cls. rewrite rmatch_cls.
    destruct t as [|d t]; [reflexivity|]. simpl in Ht.
    rewrite (upper_not_space d Ht). reflexivity.
Qed.

Lemma rmatch_tokws_plus (p : option ascii) (s : string) :
  rmatch (Plus tokws_re) (p, s) =
  match tokws s with
  | Some e => (rmatch (Plus tokws_re) e ++ [e])%list
  | None => []
  end.
Proof.
  rewrite rmatch_plus, rmatch_tokws.
  destruct (tokws s) as [[q s']|] eqn:Ht; [|reflexivity].
  simpl. rewrite app_nil_r. unfold rest. simpl.
  apply tokws_shorter in Ht. apply Nat.ltb_lt in Ht. rewrite Ht. reflexivity.
Qed.

Lemma rmatch_last_tok (p : option ascii) (s : string) :
  rmatch (Cat (Plus upper_cls) Bnd) (p, s) = last_tok s.
Proof.
  rewrite rmatch_cat, rmatch_upper_plus, flat_map_upper_ends.
  - unfold last_tok. destruct (tok s) as [[q r]|] eqn:Ht; [|reflexivity].
    destruct (tok_prev _ _ _ Ht) as (c & -> & Hc).
    rewrite rmatch_bnd. unfold at_boundary, ends_word. simpl.
    rewrite (upper_is_word c Hc). simpl. reflexivity.
  - intros c t Hc Ht. rewrite rmatch_bnd. unfold at_boundary. simpl.
    rewrite (upper_is_word c Hc). destruct t as [|d t]; [discriminate|].
    simpl in *. rewrite (upper_is_word d Ht). reflexivity.
Qed.

Lemma rmatch_runs (p : option ascii) (s : string) :
  rmatch runs_re (p, s) =
  match tokws s with
  | Some e => (rmatch runs_re e ++ last_tok (snd e))%list
  | None => []
  end.
Proof.
  unfold runs_re at 1. rewrite rmatch_cat, rmatch_tokws_plus.
  destruct (tokws s) as [[q s']|]; [|reflexivity].
  rewrite flat_map_app. simpl. rewrite app_nil_r, rmatch_last_tok.
  reflexivity.
Qed.

Lemma rmatch_name (p : option ascii) (s : string) :
  rmatch name_re (p, s) =
  if at_boundary (p, s) then rmatch runs_re (p, s) else [].
Proof.
  unfold name_re. rewrite rmatch_cat, rmatch_bnd.
  destruct (at_boundary (p, s)); simpl; [|reflexivity].
  apply app_nil_r.
Qed.

(** ** The ends the matcher finds are the ends of the runs *)

Lemma ends_word_upper_head (e : string) :
  ends_word e = true -> upper_head e = false.
Proof.
  destruct e as [|c e]; [reflexivity|]. unfold ends_word. simpl.
  destruct (is_upper c) eqn:Hc; [|reflexivity].
  rewrite (upper_is_word c Hc). discriminate.
Qed.

Lemma last_tok_spec (s : string) (q : option ascii) (e : string) :
  In (q, e) (last_tok s) ->
  exists v, s = v ++ e /\ upper_word v /\ ends_word e = true.
Proof.
  unfold last_tok. destruct (tok s) as [[q0 r]|] eqn:Ht; [|intros []].
  destruct (ends_word r) eqn:Hr; [|intros []].
  intros [H|[]]. inversion H; subst.
  destruct (tok_spec _ _ _ Ht) as (v & Hs & Hv & _). eauto.
Qed.

Lemma runs_sound (n : nat) :
  forall s, length s < n ->
  forall p q e, In (q, e) (rmatch runs_re (p, s)) -> run_end s e.
Proof.
  induction n as [|n IH]; intros s Hn p q e Hin; [lia|].
  rewrite rmatch_runs in Hin.
  destruct (tokws s) as [[q0 s']|] eqn:Ht; [|destruct Hin].
  pose proof (tokws_shorter _ _ _ Ht) as Hlt.
  destruct (tokws_spec _ _ _ Ht) as (u & w & Hs & Hu & Hw).
  apply in_app_or in Hin. destruct Hin as [Hin|Hin].
  - apply IH in Hin; [|lia]. destruct Hin as (t & Hs' & Ht' & He).
    exists (u ++ String w t). split; [|split; [constructor 2; assumption|assumption]].
    rewrite Hs, Hs', append_assoc. reflexivity.
  - simpl in Hin. apply last_tok_spec in Hin.
    destruct Hin as (v & Hs' & Hv & He).
    exists (u ++ String w v). split; [|split; [constructor 1; assumption|assumption]].
    rewrite Hs, Hs', append_assoc. reflexivity.
Qed.

Lemma runs_complete (n : nat) :
  forall s, length s < n ->
  forall p e, run_end s e -> exists q, In (q, e) (rmatch runs_re (p, s)).
Proof.
  induction n as [|n IH]; intros s Hn p e (t & Hs & Ht & He); [lia|].
  rewrite rmatch_runs.
  destruct Ht as [u w v Hu Hw Hv|u w t Hu Hw Ht];
    rewrite append_assoc in Hs; simpl in Hs; subst s;
    rewrite (tokws_app _ _ _ Hu Hw); simpl.
  - destruct (tok_app v e Hv (ends_word_upper_head _ He)) as [q Hq].
    exists q. apply in_or_app. right. unfold last_tok. rewrite Hq, He.
    left; reflexivity.
  - destruct (IH (t ++ e)) with (p := Some w) (e := e) as [q Hq].
    + rewrite length_append in Hn. simpl in Hn. lia.
    + exists t. auto.
    + exists q. apply in_or_app. left. assumption.
Qed.

Lemma run_end_length (s e : string) : run_end s e -> length e <= length s.
Proof. intros (t & -> & _). rewrite length_append. lia. Qed.

Lemma runs_in_shorter (p q q1 : option ascii) (s e r : string) :
  In (q, e) (rmatch runs_re (p, s)) -> tok s = Some (q1, r) ->
  length e < length r.
Proof.
  intros Hin Ht. rewrite rmatch_runs in Hin. unfold tokws in Hin.
  rewrite Ht in Hin. destruct r as [|w s']; [destruct Hin|].
  destruct (is_space w); [|destruct Hin].
  apply in_app_or in Hin. simpl. destruct Hin as [Hin|Hin].
  - apply (runs_sound (S (length s'))) in Hin; [|lia].
    apply run_end_length in Hin. lia.
  - simpl in Hin. apply last_tok_spec in Hin. destruct Hin as (v & -> & _).
    rewrite length_append. lia.
Qed.

(** The first end in the matcher's order is that of the longest run. *)
Lemma runs_head_longest (n : nat) :
  forall s, length s < n ->
  forall p x l, rmatch runs_re (p, s) = x :: l ->
  forall y, In y l -> length (rest x) < length (rest y).
Proof.
  induction n as [|n IH]; intros s Hn p x l Heq y Hy; [lia|].
  rewrite rmatch_runs in Heq.
  destruct (tokws s) as [[q0 s']|] eqn:Ht; [|discriminate].
  pose proof (tokws_shorter _ _ _ Ht) as Hlt. simpl in Heq.
  destruct (rmatch runs_re (q0, s')) as [|x1 l1] eqn:Hr.
  - simpl in Heq. unfold last_tok in Heq.
    destruct (tok s') as [[c r]|]; [|discriminate].
    destruct (ends_word r); inversion Heq; subst. destruct Hy.
  - simpl in Heq. inversion Heq; subst x l.
    apply in_app_or in Hy. destruct Hy as [Hy|Hy].
    + eapply IH; [|exact Hr|exact Hy]. lia.
    + unfold last_tok in Hy. destruct (tok s') as [[c r]|] eqn:Htok; [|destruct Hy].
      destruct (ends_word r); [|destruct Hy]. destruct Hy as [<-|[]].
      destruct x1 as [qx ex]. unfold rest. simpl.
      eapply runs_in_shorter; [|exact Htok].
      rewrite Hr. left; reflexivity.
Qed.

(** ** The first match of a scan *)

Lemma last_char_app (pre : string) (c : ascii) (p : option ascii) :
  last_char p (pre ++ String c "") = Some c.
Proof. revert p. induction pre as [|a pre IH]; intros p; simpl; auto. Qed.

Lemma scan_head (r : regex) (p : option ascii) (s : string) :
  first_or_none (scan r p s 0) =
  match match_at r (p, s) with
  | Some m => Some m
  | None =>
      match s with
      | String c s' => first_or_none (scan r (Some c) s' 0)
      | "" => None
      end
  end.
Proof.
  destruct s as [|c s]; simpl; destruct (match_at r _); reflexivity.
Qed.

Section FirstMatch.

(** [P pre s t]: the pattern can match [t] at the cursor that has [pre]
    behind it and [s] ahead. *)
Variable r : regex.
Variable P : string -> string -> string -> Prop.

Hypothesis match_some : forall pre s t,
  match_at r (last_char None pre, s) = Some t ->
  P pre s t /\ forall t2, P pre s t2 -> length t2 <= length t.

Hypothesis match_none : forall pre s,
  match_at r (last_char None pre, s) = None -> forall t, ~ P pre s t.

Lemma scan_first (s : string) :
  forall pre,
  match first_or_none (scan r (last_char None pre) s 0) with
  | Some t =>
      exists a b, s = a ++ b /\ P (pre ++ a) b t
        /\ (forall t2, P (pre ++ a) b t2 -> length t2 <= length t)
        /\ (forall a2 b2 t2, s = a2 ++ b2 -> P (pre ++ a2) b2 t2 ->
                             length a <= length a2)
  | None => forall a b t, s = a ++ b -> ~ P (pre ++ a) b t
  end.
Proof.
  induction s as [|c s IH]; intros pre; rewrite scan_head.
  - destruct (match_at r (last_char None pre, "")) as [m|] eqn:Hm.
    + destruct (match_some _ _ _ Hm) as [HP Hlong].
      exists "", "". rewrite (append_nil_r pre). repeat split; auto.
      intros; simpl; lia.
    + intros a b t Hab. destruct a; [|discriminate]. simpl in Hab. subst b.
      rewrite append_nil_r. apply match_none. assumption.
  - destruct (match_at r (last_char None pre, String c s)) as [m|] eqn:Hm.
    + destruct (match_some _ _ _ Hm) as [HP Hlong].
      exists "", (String c s). rewrite (append_nil_r pre). repeat split; auto.
      intros; simpl; lia.
    + specialize (IH (pre ++ String c "")). rewrite last_char_app in IH.
      assert (Hpre : forall a, (pre ++ String c "") ++ a = pre ++ String c a)
        by (intros a; rewrite append_assoc; reflexivity).
      destruct (first_or_none (scan r (Some c) s 0)) as [t|].
      * destruct IH as (a & b & Hs & HP & Hlong & Hleft).
        exists (String c a), b. rewrite <- Hpre. repeat split; auto.
        -- simpl. congruence.
        -- intros a2 b2 t2 Hs2 HP2. destruct a2 as [|c2 a2].
           ++ simpl in Hs2. subst b2. rewrite append_nil_r in HP2.
              exfalso. eapply match_none; eauto.
           ++ simpl in Hs2. inversion Hs2; subst. simpl.
              apply le_n_S. eapply Hleft; [eassumption|].
              rewrite Hpre. exact HP2.
      * intros a b t Hs HP. destruct a as [|c2 a].
        -- simpl in Hs. subst b. rewrite append_nil_r in HP.
           eapply match_none; eauto.
        -- simpl in Hs. inversion Hs; subst.
           eapply IH; [reflexivity|]. rewrite Hpre. exact HP.
Qed.

End FirstMatch.

(** ** The name pattern at one cursor *)

Lemma name_run_upper_head (t post : string) :
  name_run t -> upper_head (t ++ post) = true.
Proof.
  intros [u w v [Hne Hu] _ _|u w t' [Hne Hu] _ _];
    (destruct u as [|c u]; [congruence|]); simpl in *;
    apply andb_true_iff in Hu; tauto.
Qed.

Lemma boundary_begins (pre s : string) :
  upper_head s = true ->
  at_boundary (last_char None pre, s) = begins_word pre.
Proof.
  intros Hs. unfold at_boundary, begins_word. simpl.
  destruct s as [|c s]; [discriminate|]. simpl in *.
  rewrite (upper_is_word c Hs). apply xorb_true_r.
Qed.

Lemma runs_upper_head (p : option ascii) (s : string) :
  rmatch runs_re (p, s) <> [] -> upper_head s = true.
Proof.
  rewrite rmatch_runs. unfold tokws.
  destruct (tok s) as [e|] eqn:Ht; [|congruence].
  intros _. eapply tok_upper_head; eauto.
Qed.

Lemma name_match_some (pre s t : string) :
  match_at name_re (last_char None pre, s) = Some t ->
  name_here pre s t /\ forall t2, name_here pre s t2 -> length t2 <= length t.
Proof.
  unfold match_at. rewrite rmatch_name.
  destruct (at_boundary (last_char None pre, s)) eqn:Hb; [|discriminate].
  destruct (rmatch runs_re (last_char None pre, s)) as [|[q e] l] eqn:Hr;
    [discriminate|].
  intros H. inversion H as [Ht]. clear H. unfold rest in *. simpl in *.
  assert (Hin : In (q, e) (rmatch runs_re (last_char None pre, s)))
    by (rewrite Hr; left; reflexivity).
  apply (runs_sound (S (length s))) in Hin; [|lia].
  destruct Hin as (t0 & Hs & Hrun & He). subst s.
  rewrite take_append. rewrite take_append in Ht.
  rewrite boundary_begins in Hb by (apply name_run_upper_head; assumption).
  split.
  - split; [assumption|]. exists e. auto.
  - intros t2 (_ & post2 & Hs2 & Hrun2 & He2).
    destruct (runs_complete (S (length (t0 ++ e))) (t0 ++ e) (Nat.lt_succ_diag_r _)
                (last_char None pre) post2) as [q2 Hin2].
    { exists t2. auto. }
    rewrite Hr in Hin2. assert (Hlen : length e <= length post2).
    { destruct Hin2 as [Heq|Hin2].
      - inversion Heq; subst; lia.
      - pose proof (runs_head_longest _ _ (Nat.lt_succ_diag_r _) _ _ _ Hr _ Hin2)
          as Hlt. unfold rest in Hlt. simpl in Hlt. lia. }
    assert (Hl : length (t0 ++ e) = length (t2 ++ post2)) by congruence.
    rewrite !length_append in Hl. lia.
Qed.

Lemma name_match_none (pre s : string) :
  match_at name_re (last_char None pre, s) = None ->
  forall t, ~ name_here pre s t.
Proof.
  unfold match_at. rewrite rmatch_name.
  intros H t (Hb & post & Hs & Hrun & He).
  rewrite boundary_begins, Hb in H
    by (subst s; apply name_run_upper_head; assumption).
  destruct (runs_complete (S (length s)) s (Nat.lt_succ_diag_r _)
              (last_char None pre) post) as [q Hin].
  { exists t. auto. }
  destruct (rmatch runs_re (last_char None pre, s)); [destruct Hin|discriminate].
Qed.

(** ** The name pattern over a whole text *)

Lemma append_same_length (a b a2 b2 : string) :
  a ++ b = a2 ++ b2 -> length a = length a2 -> a = a2 /\ b = b2.
Proof.
  revert a2. induction a as [|c a IH]; intros [|c2 a2] H Hl;
    simpl in *; try discriminate; [auto|].
  inversion H; subst. destruct (IH a2) as [-> ->]; auto.
Qed.

Lemma append_split_shorter (a b a2 b2 : string) :
  a ++ b = a2 ++ b2 -> length a2 < length a ->
  exists c x, a = a2 ++ String c x /\ b2 = String c x ++ b.
Proof.
  revert a2. induction a as [|c a IH]; intros [|c2 a2] H Hl;
    simpl in *; try lia.
  - exists c, a. auto.
  - inversion H; subst. destruct (IH a2) as (d & x & -> & ->); [assumption|lia|].
    exists d, x. auto.
Qed.

Lemma name_findall_spec (s : string) :
  match first_or_none (findall name_re s) with
  | Some t => exists pre post, first_name_occ s pre t post
  | None => forall pre t post, ~ name_occ s pre t post
  end.
Proof.
  pose proof (scan_first name_re name_here name_match_some name_match_none s "")
    as H.
  unfold findall. simpl in H.
  destruct (first_or_none (scan name_re None s 0)) as [t|].
  - destruct H as (a & b & Hs & (Hb & post & Hb' & Hrun & He) & Hlong & Hleft).
    exists a, post. split.
    + unfold name_occ. subst. auto.
    + intros pre2 t2 post2 (Hs2 & Hb2 & Hrun2 & He2).
      assert (Hh : name_here pre2 (t2 ++ post2) t2)
        by (split; [assumption|]; exists post2; auto).
      pose proof (Hleft pre2 (t2 ++ post2) t2 Hs2 Hh) as Hle.
      destruct (Nat.eq_dec (length pre2) (length a)) as [Heq|Hne]; [|lia].
      right. split; [assumption|].
      rewrite Hs in Hs2. destruct (append_same_length _ _ _ _ Hs2) as [-> ->];
        [congruence|].
      apply Hlong. assumption.
  - intros pre t post (Hs & Hb & Hrun & He).
    apply (H pre (t ++ post) t Hs). split; [assumption|]. exists post. auto.
Qed.


Lemma first_name_occ_unique (s pre t post pre2 t2 post2 : string) :
  first_name_occ s pre t post -> first_name_occ s pre2 t2 post2 -> t = t2.
Proof.
  intros [Ho Hf] [Ho2 Hf2].
  pose proof (Hf _ _ _ Ho2) as H1. pose proof (Hf2 _ _ _ Ho) as H2.
  destruct Ho as (Hs & _). destruct Ho2 as (Hs2 & _).
  assert (Hp : length pre = length pre2) by lia.
  assert (Ht : length t = length t2) by lia.
  rewrite Hs in Hs2. destruct (append_same_length _ _ _ _ Hs2 Hp) as [_ Hr].
  destruct (append_same_length _ _ _ _ Hr Ht) as [-> _]. reflexivity.
Qed.


Lemma run_stop_ends_word (post : string) :
  run_stop post = true -> ends_word post = true.
Proof.
  destruct post as [|c post]; [reflexivity|]. unfold ends_word. simpl.
  intros H. apply andb_true_iff in H. tauto.
Qed.

Lemma runs_stop_nil (p : option ascii) (v post : string) :
  upper_word v -> run_stop post = true -> rmatch runs_re (p, v ++ post) = [].
Proof.
  intros Hv Hp. rewrite rmatch_runs. unfold tokws.
  destruct (tok_app v post Hv) as [q Hq].
  - apply ends_word_upper_head, run_stop_ends_word. assumption.
  - rewrite Hq. destruct post as [|c post]; [reflexivity|]. simpl in Hp.
    apply andb_true_iff in Hp. destruct Hp as [_ Hp].
    apply negb_true_iff in Hp. rewrite Hp. reflexivity.
Qed.

(** A run followed by a stop is matched whole. *)
Lemma runs_exact (t post : string) :
  name_run t -> run_stop post = true ->
  forall p, exists q l, rmatch runs_re (p, t ++ post) = (q, post) :: l.
Proof.
  intros Hrun Hp. pose proof (run_stop_ends_word _ Hp) as He.
  induction Hrun as [u w v Hu Hw Hv|u w t Hu Hw Hrun IH]; intros p;
    rewrite append_assoc; simpl; rewrite rmatch_runs, (tokws_app _ _ _ Hu Hw);
    simpl.
  - rewrite (runs_stop_nil _ _ _ Hv Hp). simpl. unfold last_tok.
    destruct (tok_app v post Hv (ends_word_upper_head _ He)) as [q Hq].
    rewrite Hq, He. eauto.
  - destruct (IH (Some w)) as (q & l & ->). simpl. eauto.
Qed.

Lemma has_upper_app (a : string) (c : ascii) (x : string) :
  has_upper (a ++ String c x) = false -> is_upper c = false.
Proof.
  induction a as [|d a IH]; simpl; intros H; apply orb_false_iff in H; tauto.
Qed.

Lemma first_name_occ_intro (pre t post : string) :
  has_upper pre = false -> begins_word pre = true -> name_run t ->
  run_stop post = true -> first_name_occ (pre ++ t ++ post) pre t post.
Proof.
  intros Hup Hb Hrun Hp. pose proof (run_stop_ends_word _ Hp) as He.
  split; [unfold name_occ; auto|].
  intros pre2 t2 post2 (Hs2 & Hb2 & Hrun2 & He2).
  destruct (Nat.lt_trichotomy (length pre) (length pre2)) as [Hlt|[Heq|Hgt]];
    [left; assumption| |].
  - right. split; [congruence|].
    destruct (append_same_length _ _ _ _ Hs2 Heq) as [_ Hr].
    destruct (runs_exact t post Hrun Hp None) as (q & l & Hm).
    destruct (runs_complete (S (length (t ++ post))) (t ++ post)
                (Nat.lt_succ_diag_r _) None post2) as [q2 Hin].
    { exists t2. auto. }
    rewrite Hm in Hin. assert (Hlen : length post <= length post2).
    { destruct Hin as [Heq2|Hin].
      - inversion Heq2; subst; lia.
      - pose proof (runs_head_longest _ _ (Nat.lt_succ_diag_r _) _ _ _ Hm _ Hin)
          as Hlt. unfold rest in Hlt. simpl in Hlt. lia. }
    assert (Hl : length (t ++ post) = length (t2 ++ post2)) by congruence.
    rewrite !length_append in Hl. lia.
  - exfalso. destruct (append_split_shorter _ _ _ _ Hs2 Hgt) as (c & x & Hpre & Hr).
    rewrite Hpre in Hup. apply has_upper_app in Hup.
    pose proof (name_run_upper_head t2 post2 Hrun2) as Hh.
    rewrite Hr in Hh. simpl in Hh. congruence.
Qed.

(** ** The method pattern *)

Lemma starts_with_append (t post : string) : starts_with t (t ++ post) = true.
Proof. induction t as [|c t IH]; simpl; [reflexivity|]. rewrite Ascii.eqb_refl. assumption. Qed.

Lemma skip_append (t post : string) : skip (length t) (t ++ post) = post.
Proof. induction t as [|c t IH]; simpl; [destruct post; reflexivity|assumption]. Qed.

Lemma starts_with_spec (t s : string) :
  starts_with t s = true -> s = t ++ skip (length t) s.
Proof.
  revert s. induction t as [|c t IH]; intros [|a s] H; simpl in *;
    try reflexivity; try discriminate.
  apply andb_true_iff in H. destruct H as [Hc H].
  apply Ascii.eqb_eq in Hc. subst a. f_equal. auto.
Qed.

Lemma rmatch_lit (t : string) :
  t <> "" -> forall p s,
  rmatch (lit t) (p, s) =
  if starts_with t s then [(last_char p t, skip (length t) s)] else [].
Proof.
  induction t as [|c t IH]; intros Hne p s; [congruence|].
  destruct t as [|d t].
  - simpl lit. rewrite rmatch_chr. destruct s as [|a s]; simpl; [reflexivity|].
    rewrite (Ascii.eqb_sym c a), andb_true_r.
    destruct (Ascii.eqb_spec a c) as [->|]; reflexivity.
  - change (lit (String c (String d t))) with (Cat (Chr c) (lit (String d t))).
    rewrite rmatch_cat, rmatch_chr. destruct s as [|a s]; [reflexivity|].
    change (starts_with (String c (String d t)) (String a s))
      with (Ascii.eqb c a && starts_with (String d t) s).
    rewrite (Ascii.eqb_sym c a).
    destruct (Ascii.eqb_spec a c) as [->|]; [|reflexivity].
    simpl flat_map. rewrite app_nil_r, IH by discriminate. reflexivity.
Qed.

Lemma rmatch_token (t : string) (p : option ascii) (s : string) :
  t <> "" -> word_before (last_char None t) = true ->
  flat_map (rmatch Bnd) (rmatch (lit t) (p, s)) = token_end t s.
Proof.
  intros Hne Hw. rewrite rmatch_lit by assumption. unfold token_end.
  destruct (starts_with t s); [|reflexivity].
  assert (Hl : last_char p t = last_char None t)
    by (destruct t; [congruence|reflexivity]).
  simpl. rewrite app_nil_r, rmatch_bnd, Hl. unfold at_boundary, ends_word.
  simpl. rewrite Hw. simpl. reflexivity.
Qed.

Lemma rmatch_method (p : option ascii) (s : string) :
  rmatch method_re (p, s) =
  (token_end "UPI" s ++ token_end "IMPS" s ++ token_end "NEFT" s
   ++ token_end "RTGS" s)%list.
Proof.
  unfold method_re. rewrite rmatch_cat, !rmatch_alt, !flat_map_app.
  rewrite !rmatch_token by (discriminate || reflexivity). reflexivity.
Qed.

Lemma token_end_in (t s : string) (x : cursor) :
  In x (token_end t s) -> s = t ++ rest x /\ ends_word (rest x) = true.
Proof.
  unfold token_end. destruct (starts_with t s) eqn:Hs; [|intros []].
  destruct (ends_word (skip (length t) s)) eqn:He; [|intros []].
  intros [<-|[]]. unfold rest. simpl. split; [|assumption].
  apply starts_with_spec. assumption.
Qed.

Lemma token_end_append (t post : string) :
  ends_word post = true -> token_end t (t ++ post) = [(last_char None t, post)].
Proof.
  intros He. unfold token_end.
  rewrite starts_with_append, skip_append, He. reflexivity.
Qed.

Lemma method_ends_in (p : option ascii) (s : string) (x : cursor) :
  In x (rmatch method_re (p, s)) ->
  exists t, In t method_tokens /\ s = t ++ rest x /\ ends_word (rest x) = true.
Proof.
  rewrite rmatch_method. intros H.
  repeat (apply in_app_or in H; destruct H as [H|H]);
    apply token_end_in in H; eexists; (split; [|exact H]); simpl; auto.
Qed.

Lemma method_tokens_head (t t2 post post2 : string) :
  In t method_tokens -> In t2 method_tokens -> t ++ post = t2 ++ post2 ->
  t = t2.
Proof.
  simpl. intros H H2 Heq.
  repeat (destruct H as [H|H]; [subst t|]); try contradiction;
    repeat (destruct H2 as [H2|H2]; [subst t2|]); try contradiction;
    try reflexivity; discriminate.
Qed.

Lemma method_match_some (pre s t : string) :
  match_at method_re (last_char None pre, s) = Some t ->
  method_here pre s t /\ forall t2, method_here pre s t2 -> length t2 <= length t.
Proof.
  unfold match_at.
  destruct (rmatch method_re (last_char None pre, s)) as [|x l] eqn:Hr;
    [discriminate|].
  intros H. inversion H as [Ht]. clear H.
  destruct (method_ends_in (last_char None pre) s x) as (t0 & Hin & Hs & He).
  { rewrite Hr. left; reflexivity. }
  destruct x as [q e]. unfold rest in *. simpl in *. subst s.
  rewrite take_append.
  split.
  - exists e. repeat split; assumption.
  - intros t2 (post2 & Hs2 & Hin2 & _).
    rewrite (method_tokens_head _ _ _ _ Hin Hin2 Hs2). lia.
Qed.

Lemma method_match_none (pre s : string) :
  match_at method_re (last_char None pre, s) = None ->
  forall t, ~ method_here pre s t.
Proof.
  unfold match_at. rewrite rmatch_method.
  intros H t (post & -> & Hin & He).
  simpl in Hin.
  repeat (destruct Hin as [Hin|Hin]; [subst t|]); try contradiction;
    rewrite (token_end_append _ _ He) in H;
    repeat (match type of H with
            | context [token_end ?a ?b] => destruct (token_end a b)
            end);
    discriminate.
Qed.

Lemma method_findall_spec (s : string) :
  match first_or_none (findall method_re s) with
  | Some t => exists pre post, first_method_occ s pre t post
  | None => forall pre t post, ~ method_occ s pre t post
  end.
Proof.
  pose proof (scan_first method_re method_here method_match_some
                method_match_none s "") as H.
  unfold findall. simpl in H.
  destruct (first_or_none (scan method_re None s 0)) as [t|].
  - destruct H as (a & b & Hs & (post & Hb & Hin & He) & _ & Hleft).
    exists a, post. split.
    + unfold method_occ. subst. auto.
    + intros pre2 t2 post2 (Hs2 & Hin2 & He2).
      apply (Hleft pre2 (t2 ++ post2) t2 Hs2). exists post2. auto.
  - intros pre t post (Hs & Hin & He).
    apply (H pre (t ++ post) t Hs). exists post. auto.
Qed.

(** ** The three classifiers on a narration text *)

Lemma has_char_append (c : ascii) (a b : string) :
  has_char c (a ++ b) = has_char c a || has_char c b.
Proof. induction a as [|d a IH]; simpl; [reflexivity|]. rewrite IH. apply orb_assoc. Qed.

Lemma space_run_has_space (t : string) :
  space_run t -> has_char " " t = true.
Proof.
  intros [u v _ _|u t' _ _]; rewrite has_char_append; simpl;
    apply orb_true_r.
Qed.

Ltac peel pre Hs :=
  destruct pre as [|? pre]; simpl in Hs;
  [try discriminate Hs | injection Hs as ? Hs].

(** C1, as stated, fails: in ["XUPI"] no token stands as a whole word, and the
    extractor returns [UPI]. *)
Lemma payment_method_not_whole_word :
  extract_payment_method (PyStr "XUPI") = OK (Some "UPI")
  /\ forall pre t post, ~ whole_word_occ "XUPI" pre t post.
Proof.
  split; [vm_compute; reflexivity|].
  intros pre t post [(Hs & Hin & He) Hb]. simpl in Hin.
  destruct Hin as [<-|[<-|[<-|[<-|[]]]]];
    do 4 (try peel pre Hs); subst; try discriminate;
    destruct pre; discriminate Hs.
Qed.

(** C1 (amended): on every narration text the payment-method extractor
    returns the leftmost occurrence of one of the tokens UPI, IMPS, NEFT, RTGS
    that is followed by a word boundary (the end of the text or a character
    that is not a word character), whatever precedes it, and returns none when
    the text has no such occurrence. *)
Theorem payment_method_first_token (s : string) :
  match extract_payment_method (PyStr s) with
  | OK (Some t) => exists pre post, first_method_occ s pre t post
  | OK None => forall pre t post, ~ method_occ s pre t post
  | Err _ => False
  end.
Proof.
  unfold extract_payment_method. simpl.
  pose proof (method_findall_spec s) as H.
  destruct (first_or_none (findall method_re s)); exact H.
Qed.

(** C6, as stated, fails: ["AB<TAB>CD"] has no run of space-separated tokens,
    and the extractor returns the whole text as the name. *)
Lemma name_not_space_separated :
  extract_sender_receiver_name (PyStr ("AB" ++ String tab "CD"))
  = OK (Some ("AB" ++ String tab "CD"))
  /\ forall pre t post,
       "AB" ++ String tab "CD" = pre ++ t ++ post -> ~ space_run t.
Proof.
  split; [vm_compute; reflexivity|].
  intros pre t post Hs Hrun. apply space_run_has_space in Hrun.
  assert (H : has_char " " ("AB" ++ String tab "CD") = true).
  { rewrite Hs, !has_char_append, Hrun. apply orb_true_iff. right. reflexivity. }
  vm_compute in H. discriminate.
Qed.

(** C6 (amended): on every narration text the name extractor returns the
    first (leftmost) maximal run of two or more all-uppercase A-Z tokens,
    neighbours separated by one whitespace character of any kind (space, tab,
    newline, ...), the run standing between word boundaries; it returns none
    when the text has no such run. *)
Theorem name_first_run (s : string) :
  match extract_sender_receiver_name (PyStr s) with
  | OK (Some t) => exists pre post, first_name_occ s pre t post
  | OK None => forall pre t post, ~ name_occ s pre t post
  | Err _ => False
  end.
Proof.
  unfold extract_sender_receiver_name. simpl.
  pose proof (name_findall_spec s) as H.
  destruct (first_or_none (findall name_re s)); exact H.
Qed.

Lemma name_of_first_occ (s pre t post : string) :
  first_name_occ s pre t post ->
  extract_sender_receiver_name (PyStr s) = OK (Some t).
Proof.
  intros Hfirst. unfold extract_sender_receiver_name. simpl.
  pose proof (name_findall_spec s) as H.
  destruct (first_or_none (findall name_re s)) as [t'|].
  - destruct H as (pre' & post' & H).
    rewrite (first_name_occ_unique _ _ _ _ _ _ _ H Hfirst). reflexivity.
  - destruct Hfirst as [Hocc _]. exfalso. eapply H; eassumption.
Qed.

(** C10, as stated, fails: in ["AB CD x E<TAB>F"] the tokens E and F stand
    with a tab between them, a run between word boundaries, and the extractor
    returns the earlier run AB CD instead. *)
Lemma name_tab_run_not_first :
  name_occ ("AB CD x E" ++ String tab "F")
           "AB CD x " ("E" ++ String tab "F") ""
  /\ extract_sender_receiver_name (PyStr ("AB CD x E" ++ String tab "F"))
     = OK (Some "AB CD")
  /\ "AB CD" <> "E" ++ String tab "F".
Proof.
  split; [|split; [vm_compute; reflexivity|discriminate]].
  unfold name_occ. repeat split; try reflexivity.
  apply (run_two "E" tab "F"); try reflexivity;
    (split; [discriminate|reflexivity]).
Qed.

(** C10 (amended): the separators of a run are single whitespace characters
    of any kind, tabs and newlines included, and its tokens are one or more
    capital letters, single letters included.  A narration that is such a run
    is returned whole as the name; and within a longer narration the run is
    returned when it is the first run of the text, and the longest that
    starts there. *)
Theorem name_any_whitespace :
  (forall t, name_run t ->
     extract_sender_receiver_name (PyStr t) = OK (Some t))
  /\ (forall s pre t post, first_name_occ s pre t post ->
        extract_sender_receiver_name (PyStr s) = OK (Some t)).
Proof.
  split; [|exact name_of_first_occ].
  intros t Hrun. apply (name_of_first_occ t "" t "").
  pose proof (first_name_occ_intro "" t "" eq_refl eq_refl Hrun eq_refl) as H.
  simpl in H. rewrite append_nil_r in H. exact H.
Qed.

Lemma name_any_whitespace_witness :
  name_run ("A" ++ String tab ("B" ++ String nl "C"))
  /\ extract_sender_receiver_name
       (PyStr ("A" ++ String tab ("B" ++ String nl "C")))
     = OK (Some ("A" ++ String tab ("B" ++ String nl "C")))
  /\ first_name_occ ("ref A" ++ String tab ("B" ++ String nl "C."))
                    "ref " ("A" ++ String tab ("B" ++ String nl "C")) "."
  /\ extract_sender_receiver_name
       (PyStr ("ref A" ++ String tab ("B" ++ String nl "C.")))
     = OK (Some ("A" ++ String tab ("B" ++ String nl "C"))).
Proof.
  assert (Hrun : name_run ("A" ++ String tab ("B" ++ String nl "C"))).
  { apply (run_more "A" tab ("B" ++ String nl "C")).
    - split; [discriminate|reflexivity].
    - reflexivity.
    - apply (run_two "B" nl "C"); try reflexivity;
        (split; [discriminate|reflexivity]). }
  assert (H : first_name_occ ("ref A" ++ String tab ("B" ++ String nl "C."))
                "ref " ("A" ++ String tab ("B" ++ String nl "C")) ".")
    by (apply (first_name_occ_intro
                 "ref " ("A" ++ String tab ("B" ++ String nl "C")) ".");
        try reflexivity; exact Hrun).
  split; [exact Hrun|].
  split; [exact (proj1 name_any_whitespace _ Hrun)|].
  split; [exact H|].
  exact (proj2 name_any_whitespace _ _ _ _ H).
Defined.

(** ** The platform classifier *)

Lemma starts_with_lower (t s : string) :
  starts_with (lower t) (lower s) = starts_with_ci t s.
Proof.
  revert s. induction t as [|a t IH]; intros [|b s]; simpl; try reflexivity.
  rewrite IH. reflexivity.
Qed.

Lemma contains_lower (t s : string) :
  contains (lower t) (lower s) = contains_ci t s.
Proof.
  induction s as [|b s IH].
  - simpl. rewrite <- starts_with_lower. simpl. reflexivity.
  - simpl. rewrite IH. f_equal.
    change (String (lower_char b) (lower s)) with (lower (String b s)).
    apply starts_with_lower.
Qed.

Lemma eq_ci_lower (s s' : string) : eq_ci s s' = true -> lower s = lower s'.
Proof.
  revert s'. induction s as [|a s IH]; intros [|b s'] H; simpl in *;
    try discriminate; [reflexivity|].
  apply andb_true_iff in H. destruct H as [Hc H].
  apply Ascii.eqb_eq in Hc. rewrite Hc, (IH _ H). reflexivity.
Qed.

Lemma keyword_lower (k s : string) :
  lower k = k -> contains k (lower s) = contains_ci k s.
Proof. intros H. rewrite <- contains_lower, H. reflexivity. Qed.

Lemma platform_by_rules (s : string) :
  extract_payment_platform (PyStr s)
  = OK (option_map platform_label (classify s)).
Proof.
  unfold extract_payment_platform, classify, platform_rules, rule_matches.
  cbn [handle_nan notnull py_str str_lower rbind find existsb fst].
  rewrite !keyword_lower by reflexivity.
  destruct (contains_ci "phone pe" s), (contains_ci "@ybl" s),
    (contains_ci "@axl" s), (contains_ci "paytm" s),
    (contains_ci "bharatpe" s), (contains_ci "cash wdl" s),
    (contains_ci "@ok" s); reflexivity.
Qed.

(** C2, as stated, fails: a narration with ["paytm"] and ["@ok"] that also
    has ["@ybl"] classifies as PhonePe, not Paytm. *)
Lemma platform_paytm_ok_phonepe :
  contains "paytm" "paytm a@okaxis b@ybl" = true
  /\ contains "@ok" "paytm a@okaxis b@ybl" = true
  /\ extract_payment_platform (PyStr "paytm a@okaxis b@ybl")
     = OK (Some "PhonePe").
Proof. repeat split; vm_compute; reflexivity. Qed.

(** C2 (amended): on every narration text the platform classifier ignores
    case and returns the platform of the first rule, in the order (1)
    "phone pe" / "@ybl" / "@axl": PhonePe, (2) "paytm": Paytm, (3) "bharatpe":
    BharatPay, (4) "cash wdl": ATM, (5) "@ok": GooglePay, one of whose
    keywords occurs in the text, and none when no rule matches; the platforms
    are returned as the texts 'PhonePe', 'Paytm', 'Bharat Pay', 'ATM' and
    'Google Pay'.  Priority, not position, decides: a narration with both
    "paytm" and "@ok" and with no keyword of rule 1 classifies as Paytm. *)
Theorem platform_rule_table (s : string) :
  extract_payment_platform (PyStr s)
  = OK (option_map platform_label (classify s))
  /\ (forall s', eq_ci s s' = true ->
        extract_payment_platform (PyStr s')
        = extract_payment_platform (PyStr s))
  /\ (contains_ci "paytm" s = true -> contains_ci "@ok" s = true ->
      rule_matches s (["phone pe"; "@ybl"; "@axl"], PhonePe) = false ->
      extract_payment_platform (PyStr s) = OK (Some "Paytm")).
Proof.
  split; [apply platform_by_rules|split].
  - intros s' H. unfold extract_payment_platform. simpl.
    rewrite (eq_ci_lower _ _ H). reflexivity.
  - intros Hp _ H1. rewrite platform_by_rules. unfold classify. simpl.
    rewrite H1. unfold rule_matches. simpl. rewrite Hp. reflexivity.
Qed.

Lemma platform_rule_table_witness :
  eq_ci "PayTM to x@OKaxis" "paytm TO X@okAXIS" = true
  /\ extract_payment_platform (PyStr "paytm TO X@okAXIS") = OK (Some "Paytm")
  /\ extract_payment_platform (PyStr "PayTM to x@OKaxis") = OK (Some "Paytm").
Proof.
  destruct (platform_rule_table "PayTM to x@OKaxis") as (_ & Hci & Htie).
  assert (H : extract_payment_platform (PyStr "PayTM to x@OKaxis")
              = OK (Some "Paytm"))
    by (apply Htie; reflexivity).
  split; [reflexivity|]. split; [|exact H].
  rewrite <- H. apply Hci. reflexivity.
Defined.

(** ** No classifier raises *)

Lemma handle_nan_text (v : pyval) : exists s, handle_nan v = PyStr s.
Proof. unfold handle_nan. destruct (notnull v); eauto. Qed.

Lemma platform_total (v : pyval) :
  exists platform, extract_payment_platform v = OK platform.
Proof.
  unfold extract_payment_platform.
  destruct (handle_nan_text v) as [s ->]. cbn [str_lower rbind].
  repeat match goal with
         | |- context [if ?b then _ else _] => destruct b
         end; eauto.
Qed.

Lemma name_total (v : pyval) :
  exists o, extract_sender_receiver_name v = OK o.
Proof.
  unfold extract_sender_receiver_name.
  destruct (handle_nan_text v) as [s ->]. simpl. eauto.
Qed.

Lemma method_total (v : pyval) : exists o, extract_payment_method v = OK o.
Proof.
  unfold extract_payment_method.
  destruct (handle_nan_text v) as [s ->]. simpl. eauto.
Qed.

(** C8, as stated, fails: when the header repeats the label Narration, what
    a classifier is handed is a whole column, and [handle_nan] raises on it
    before anything is classified. *)
Lemma classifier_raises_on_column :
  handle_nan_object (Column [PyStr "UPI to JOHN SMITH"; PyStr "cash wdl"])
  = Err (ValueError "The truth value of a Series is ambiguous")
  /\ extract_sender_receiver_name_object
       (Column [PyStr "UPI to JOHN SMITH"; PyStr "cash wdl"])
     = Err (ValueError "The truth value of a Series is ambiguous")
  /\ extract_payment_method_object
       (Column [PyStr "UPI to JOHN SMITH"; PyStr "cash wdl"])
     = Err (ValueError "The truth value of a Series is ambiguous")
  /\ extract_payment_platform_object
       (Column [PyStr "UPI to JOHN SMITH"; PyStr "cash wdl"])
     = Err (ValueError "The truth value of a Series is ambiguous").
Proof. repeat split. Qed.

(** C8 (amended): handed a single cell, whatever it holds (text, a number,
    None or NaN), none of the three classifiers raises.  None and NaN become
    the empty text, on which each classifier finds nothing, and finding
    nothing is the value none, not an error. *)
Theorem classifiers_never_raise :
  (forall v : pyval,
      exists name method platform,
        extract_sender_receiver_name_object (Cell v) = OK name
        /\ extract_payment_method_object (Cell v) = OK method
        /\ extract_payment_platform_object (Cell v) = OK platform
        /\ extract_sender_receiver_name v = OK name
        /\ extract_payment_method v = OK method
        /\ extract_payment_platform v = OK platform)
  /\ handle_nan PyNone = PyStr ""
  /\ handle_nan PyNaN = PyStr ""
  /\ extract_sender_receiver_name PyNone = OK None
  /\ extract_payment_method PyNone = OK None
  /\ extract_payment_platform PyNone = OK None
  /\ extract_sender_receiver_name PyNaN = OK None
  /\ extract_payment_method PyNaN = OK None
  /\ extract_payment_platform PyNaN = OK None.
Proof.
  split.
  - intros v.
    destruct (name_total v) as [name Hname].
    destruct (method_total v) as [method Hmethod].
    destruct (platform_total v) as [platform Hplatform].
    exists name, method, platform.
    repeat split; assumption.
  - repeat split; vm_compute; reflexivity.
Qed.

(** ** Frames *)

Lemma find_set_column_same (name : string) (series : list pyval)
  (cols : list (pyval * list pyval)) :
  exists l, find (fun c => label_is name (fst c)) (set_column name series cols)
            = Some (l, series).
Proof.
  induction cols as [|c cols IH]; simpl.
  - rewrite String.eqb_refl. eauto.
  - destruct (label_is name (fst c)) eqn:Hc; simpl; rewrite Hc; eauto.
Qed.

Lemma getitem_setitem_same (df : DataFrame) (name : string)
  (series : list pyval) :
  getitem (setitem df name series) name = OK series.
Proof.
  unfold getitem, setitem. simpl.
  destruct (find_set_column_same name series (columns df)) as [l ->].
  reflexivity.
Qed.

Lemma label_is_other (name name' : string) (l : pyval) :
  name <> name' -> label_is name' l = true -> label_is name l = false.
Proof.
  destruct l; simpl; try discriminate.
  intros Hne H. apply String.eqb_eq in H. subst.
  apply String.eqb_neq. congruence.
Qed.

Lemma getitem_setitem_other (df : DataFrame) (name name' : string)
  (series : list pyval) :
  name <> name' ->
  getitem (setitem df name' series) name = getitem df name.
Proof.
  intros Hne. unfold getitem, setitem. simpl.
  induction (columns df) as [|c cols IH]; simpl.
  - apply String.eqb_neq in Hne. rewrite String.eqb_sym, Hne. reflexivity.
  - destruct (label_is name' (fst c)) eqn:Hc; simpl.
    + rewrite (label_is_other _ _ _ Hne Hc). reflexivity.
    + destruct (label_is name (fst c)); [reflexivity|]. assumption.
Qed.

Lemma series_apply_nth (f : pyval -> result (option string)) (l : list pyval) :
  forall l', series_apply f l = OK l' ->
  forall i v, nth_error l i = Some v ->
  exists o, f v = OK o /\ nth_error l' i = Some (cell_of o).
Proof.
  induction l as [|a l IH]; intros l' H i v Hi.
  - destruct i; discriminate.
  - simpl in H. destruct (f a) as [o|] eqn:Hf; [|discriminate]. simpl in H.
    destruct (series_apply f l) as [rest|]; [|discriminate]. simpl in H.
    inversion H; subst. destruct i as [|i]; simpl in *.
    + inversion Hi; subst. eauto.
    + eapply IH; eauto.
Qed.

Lemma cell_getitem (df : DataFrame) (name : string) (series : list pyval)
  (i : nat) :
  getitem df name = OK series -> cell df name i = nth_error series i.
Proof. unfold cell. intros ->. reflexivity. Qed.

(** What [enrich] puts in the three new columns of a row. *)
Lemma enrich_row (df e : DataFrame) (i : nat) (v : pyval) :
  enrich df = OK e -> cell df "Narration" i = Some v ->
  exists name method platform,
    extract_sender_receiver_name v = OK name
    /\ extract_payment_method v = OK method
    /\ extract_payment_platform v = OK platform
    /\ cell e "Name" i = Some (cell_of name)
    /\ cell e "Payment_Method" i = Some (cell_of method)
    /\ cell e "Payment_Platform" i = Some (cell_of platform).
Proof.
  unfold enrich. intros He Hv.
  destruct (getitem df "Narration") as [narration|] eqn:Hn; [|discriminate].
  rewrite (cell_getitem _ _ _ _ Hn) in Hv. cbn [rbind] in He.
  destruct (series_apply extract_sender_receiver_name narration)
    as [name|] eqn:Hname; [|discriminate]. cbn [rbind] in He.
  rewrite getitem_setitem_other, Hn in He by discriminate. cbn [rbind] in He.
  destruct (series_apply extract_payment_method narration)
    as [method|] eqn:Hmethod; [|discriminate]. cbn [rbind] in He.
  rewrite !getitem_setitem_other, Hn in He by discriminate. cbn [rbind] in He.
  destruct (series_apply extract_payment_platform narration)
    as [platform|] eqn:Hplatform; [|discriminate]. cbn [rbind] in He.
  inversion He; subst e. clear He.
  destruct (series_apply_nth _ _ _ Hname _ _ Hv) as (n & Hfn & Hin).
  destruct (series_apply_nth _ _ _ Hmethod _ _ Hv) as (m & Hfm & Him).
  destruct (series_apply_nth _ _ _ Hplatform _ _ Hv) as (p & Hfp & Hip).
  exists n, m, p. repeat split; try assumption; unfold cell.
  - rewrite !getitem_setitem_other, getitem_setitem_same by discriminate.
    assumption.
  - rewrite getitem_setitem_other, getitem_setitem_same by discriminate.
    assumption.
  - rewrite getitem_setitem_same. assumption.
Qed.

(** C9: name, payment method and payment platform of a row are decided by the
    narration text of that row alone: two rows with the same narration text,
    at any positions of any two frames, get the same three derived cells. *)
Theorem derived_fields_of_narration (df1 df2 e1 e2 : DataFrame) (i j : nat)
  (v1 v2 : pyval) :
  enrich df1 = OK e1 -> enrich df2 = OK e2 ->
  cell df1 "Narration" i = Some v1 -> cell df2 "Narration" j = Some v2 ->
  handle_nan v1 = handle_nan v2 ->
  exists name method platform,
    cell e1 "Name" i = Some name /\ cell e2 "Name" j = Some name
    /\ cell e1 "Payment_Method" i = Some method
    /\ cell e2 "Payment_Method" j = Some method
    /\ cell e1 "Payment_Platform" i = Some platform
    /\ cell e2 "Payment_Platform" j = Some platform.
Proof.
  intros He1 He2 Hv1 Hv2 Heq.
  destruct (enrich_row _ _ _ _ He1 Hv1)
    as (n1 & m1 & p1 & Hn1 & Hm1 & Hp1 & Hcn1 & Hcm1 & Hcp1).
  destruct (enrich_row _ _ _ _ He2 Hv2)
    as (n2 & m2 & p2 & Hn2 & Hm2 & Hp2 & Hcn2 & Hcm2 & Hcp2).
  unfold extract_sender_receiver_name, extract_payment_method,
    extract_payment_platform in *.
  rewrite Heq in Hn1, Hm1, Hp1.
  assert (n1 = n2) by congruence. assert (m1 = m2) by congruence.
  assert (p1 = p2) by congruence. subst.
  exists (cell_of n2), (cell_of m2), (cell_of p2). repeat split; assumption.
Qed.

Lemma derived_fields_of_narration_witness :
  exists e1 e2,
    enrich (mkFrame 2 [(PyStr "Narration",
                        [PyStr "UPI to JOHN SMITH"; PyStr "cash wdl"]);
                       (PyStr "Amount", [PyInt 100; PyInt 50])]) = OK e1
    /\ enrich (document_frame (PyStr "cash wdl") PyNone) = OK e2
    /\ cell e1 "Payment_Platform" 1 = Some (PyStr "ATM")
    /\ exists name method platform,
         cell e1 "Name" 1 = Some name /\ cell e2 "Name" 0 = Some name
         /\ cell e1 "Payment_Method" 1 = Some method
         /\ cell e2 "Payment_Method" 0 = Some method
         /\ cell e1 "Payment_Platform" 1 = Some platform
         /\ cell e2 "Payment_Platform" 0 = Some platform.
Proof.
  eexists. eexists.
  split; [vm_compute; reflexivity|].
  split; [vm_compute; reflexivity|].
  split; [vm_compute; reflexivity|].
  eapply (derived_fields_of_narration
            (mkFrame 2 [(PyStr "Narration",
                         [PyStr "UPI to JOHN SMITH"; PyStr "cash wdl"]);
                        (PyStr "Amount", [PyInt 100; PyInt 50])])
            (document_frame (PyStr "cash wdl") PyNone) _ _ 1 0
            (PyStr "cash wdl") (PyStr "cash wdl"));
    vm_compute; reflexivity.
Defined.

(** ** The total of the Amount column *)

Lemma has_column_getitem (df : DataFrame) (name : string) :
  has_column name df = true ->
  exists series, getitem df name = OK series.
Proof.
  unfold has_column, getitem.
  induction (columns df) as [|c cols IH]; simpl; [discriminate|].
  destruct (label_is name (fst c)); simpl; eauto.
Qed.


Lemma label_count_has_column (name : string) (df : DataFrame) :
  label_count name df = 1 -> has_column name df = true.
Proof.
  unfold label_count, has_column.
  induction (columns df) as [|c cols IH]; simpl; [discriminate|].
  destruct (label_is name (fst c)); simpl; auto.
Qed.

Lemma round53_exact (z : Z) :
  (Z.abs z <= exact_float_bound)%Z -> round53 z = z.
Proof.
  unfold exact_float_bound, round53. cbv zeta. intros H.
  destruct (Z.abs z <? 9007199254740992)%Z eqn:E; [reflexivity|].
  apply Z.ltb_ge in E.
  assert (Hz : z = 9007199254740992%Z \/ z = (-9007199254740992)%Z) by lia.
  destruct Hz; subst z; vm_compute; reflexivity.
Qed.

Lemma int64_wrap_exact (z : Z) :
  (- 9223372036854775808 <= z < 9223372036854775808)%Z -> int64_wrap z = z.
Proof.
  unfold int64_wrap. intros H. rewrite Z.mod_small; lia.
Qed.

Lemma magnitude_nonneg (l : list pyval) : (0 <= magnitude l)%Z.
Proof.
  unfold magnitude, sum_Z.
  induction l as [|v l IH]; simpl; [lia|].
  destruct v; simpl; lia.
Qed.

Lemma magnitude_cons (v : pyval) (l : list pyval) :
  magnitude (v :: l) = (Z.abs (int_of v) + magnitude l)%Z.
Proof.
  unfold magnitude, sum_Z. destruct v; simpl; reflexivity.
Qed.

Lemma present_amounts_cons (v : pyval) (l : list pyval) :
  number_or_missing v = true ->
  sum_Z (present_amounts (v :: l))
  = (int_of v + sum_Z (present_amounts l))%Z.
Proof.
  unfold sum_Z. destruct v; simpl; intros H; try reflexivity; discriminate.
Qed.

Lemma numbers_no_text (l : list pyval) :
  forallb number_or_missing l = true -> existsb is_text l = false.
Proof.
  induction l as [|v l IH]; simpl; [reflexivity|].
  intros H. apply andb_true_iff in H. destruct H as [Hv Hl].
  rewrite (IH Hl). destruct v; simpl in *; try reflexivity; discriminate.
Qed.

Lemma float_add_exact (x y : Z) :
  (Z.abs x + Z.abs y <= exact_float_bound)%Z -> float_add x y = (x + y)%Z.
Proof. intros H. unfold float_add. apply round53_exact. lia. Qed.

Lemma sum_abs_cons (x : Z) (l : list Z) :
  sum_abs (x :: l) = (Z.abs x + sum_abs l)%Z.
Proof. reflexivity. Qed.

Lemma sum_Z_cons (x : Z) (l : list Z) : sum_Z (x :: l) = (x + sum_Z l)%Z.
Proof. reflexivity. Qed.

Lemma sum_abs_bounds (l : list Z) : (Z.abs (sum_Z l) <= sum_abs l)%Z.
Proof.
  induction l as [|x l IH]; [unfold sum_abs, sum_Z; simpl; lia|].
  rewrite sum_abs_cons, sum_Z_cons. lia.
Qed.

Lemma sum_abs_nonneg (l : list Z) : (0 <= sum_abs l)%Z.
Proof. pose proof (sum_abs_bounds l). lia. Qed.

Lemma sum_Z_app (l1 l2 : list Z) :
  sum_Z (l1 ++ l2)%list = (sum_Z l1 + sum_Z l2)%Z.
Proof.
  induction l1 as [|x l1 IH]; [reflexivity|].
  simpl app. rewrite !sum_Z_cons, IH. lia.
Qed.

Lemma sum_abs_app (l1 l2 : list Z) :
  sum_abs (l1 ++ l2)%list = (sum_abs l1 + sum_abs l2)%Z.
Proof. unfold sum_abs. rewrite map_app. apply sum_Z_app. Qed.

Lemma sum_from_exact (l : list Z) :
  forall acc,
    (Z.abs acc + sum_abs l <= exact_float_bound)%Z ->
    sum_from acc l = (acc + sum_Z l)%Z.
Proof.
  unfold sum_from.
  induction l as [|x l IH]; intros acc H.
  - unfold sum_Z. simpl. lia.
  - rewrite sum_abs_cons in H. pose proof (sum_abs_nonneg l).
    cbn [fold_left]. rewrite float_add_exact by lia.
    rewrite IH by lia. rewrite sum_Z_cons. lia.
Qed.

Lemma add_block_exact (r : list Z) :
  forall block,
    List.length r = List.length block ->
    (sum_abs r + sum_abs block <= exact_float_bound)%Z ->
    List.length (add_block r block) = List.length r
    /\ sum_Z (add_block r block) = (sum_Z r + sum_Z block)%Z
    /\ (sum_abs (add_block r block) <= sum_abs r + sum_abs block)%Z.
Proof.
  unfold add_block.
  induction r as [|x r IH]; intros [|y block] Hlen H; try discriminate.
  - repeat split. vm_compute. discriminate.
  - rewrite !sum_abs_cons in H.
    pose proof (sum_abs_nonneg r). pose proof (sum_abs_nonneg block).
    destruct (IH block) as (Hl & Hs & Ha); [simpl in Hlen; lia|lia|].
    cbn [combine map fst snd List.length].
    rewrite !sum_Z_cons, !sum_abs_cons, Hl, Hs.
    rewrite float_add_exact by lia. repeat split; lia.
Qed.

Lemma add_lanes_exact (n : nat) :
  forall l r,
    List.length l <= n -> List.length r = 8 ->
    (sum_abs r + sum_abs l <= exact_float_bound)%Z ->
    List.length (fst (add_lanes r l)) = 8
    /\ (sum_Z (fst (add_lanes r l)) + sum_Z (snd (add_lanes r l))
        = sum_Z r + sum_Z l)%Z
    /\ (sum_abs (fst (add_lanes r l)) + sum_abs (snd (add_lanes r l))
        <= sum_abs r + sum_abs l)%Z.
Proof.
  induction n as [|n IH]; intros l r Hn Hr H.
  - destruct l; [|simpl in Hn; lia]. simpl. repeat split; (assumption || lia).
  - destruct l as [|a0 [|a1 [|a2 [|a3 [|a4 [|a5 [|a6 [|a7 l']]]]]]]];
      try (cbn [add_lanes fst snd]; repeat split; (assumption || lia)).
    cbn [add_lanes].
    change (a0 :: a1 :: a2 :: a3 :: a4 :: a5 :: a6 :: a7 :: l')
      with ([a0; a1; a2; a3; a4; a5; a6; a7] ++ l')%list in *.
    rewrite sum_abs_app in H. rewrite sum_Z_app, sum_abs_app.
    pose proof (sum_abs_nonneg l').
    destruct (add_block_exact r [a0; a1; a2; a3; a4; a5; a6; a7])
      as (Hl & Hs & Ha); [rewrite Hr; reflexivity|lia|].
    destruct (IH l' (add_block r [a0; a1; a2; a3; a4; a5; a6; a7]))
      as (Hl' & Hs' & Ha');
      [rewrite length_app in Hn; simpl in Hn; lia|lia|lia|].
    repeat split; [assumption|lia|lia].
Qed.

Lemma sum_lanes_exact (r : list Z) :
  List.length r = 8 -> (sum_abs r <= exact_float_bound)%Z ->
  sum_lanes r = sum_Z r.
Proof.
  destruct r as [|r0 [|r1 [|r2 [|r3 [|r4 [|r5 [|r6 [|r7 [|r8 r]]]]]]]]];
    try discriminate.
  intros _ H. unfold sum_abs, sum_Z in *. cbn [map fold_right] in H.
  cbn [sum_lanes fold_right].
  rewrite (float_add_exact r0 r1) by lia.
  rewrite (float_add_exact r2 r3) by lia.
  rewrite (float_add_exact r4 r5) by lia.
  rewrite (float_add_exact r6 r7) by lia.
  rewrite (float_add_exact (r0 + r1) (r2 + r3)) by lia.
  rewrite (float_add_exact (r4 + r5) (r6 + r7)) by lia.
  rewrite float_add_exact by lia. lia.
Qed.

Lemma sum_firstn_skipn (n : nat) (a : list Z) :
  (sum_Z (firstn n a) + sum_Z (skipn n a) = sum_Z a)%Z
  /\ (sum_abs (firstn n a) + sum_abs (skipn n a) = sum_abs a)%Z.
Proof.
  rewrite <- sum_Z_app, <- sum_abs_app, firstn_skipn. split; reflexivity.
Qed.

(** No sum of floats is rounded while the magnitudes of the floats add up
    to an integer that a float holds exactly: numpy's sum is then the sum,
    and the fuel is enough. *)
Lemma pairwise_sum_exact (fuel : nat) :
  forall a,
    List.length a <= fuel -> (sum_abs a <= exact_float_bound)%Z ->
    pairwise_sum fuel a = sum_Z a.
Proof.
  induction fuel as [|fuel IH]; intros a Hf H.
  - destruct a; [|simpl in Hf; lia]. reflexivity.
  - cbn [pairwise_sum].
    destruct (List.length a <? 8)%nat eqn:E8.
    + rewrite sum_from_exact by (simpl; lia). lia.
    + apply Nat.ltb_ge in E8.
      destruct (sum_firstn_skipn 8 a) as [Hs Ha].
      destruct (List.length a <=? 128)%nat eqn:E128.
      * destruct (add_lanes_exact (List.length (skipn 8 a)) (skipn 8 a)
                    (firstn 8 a)) as (Hl & Hs' & Ha');
          [lia|rewrite length_firstn; lia|lia|].
        destruct (add_lanes (firstn 8 a) (skipn 8 a)) as [r rest].
        cbn [fst snd] in *.
        pose proof (sum_abs_nonneg rest). pose proof (sum_abs_nonneg r).
        pose proof (sum_abs_bounds r).
        rewrite (sum_lanes_exact r Hl) by lia.
        rewrite sum_from_exact by lia. lia.
      * apply Nat.leb_gt in E128.
        set (n2 := (List.length a / 2 - (List.length a / 2) mod 8)%nat).
        assert (Hn2 : 0 < n2 < List.length a).
        { unfold n2.
          pose proof (Nat.mod_upper_bound (List.length a / 2) 8 ltac:(lia)).
          assert (List.length a / 2 < List.length a)
            by (apply Nat.Div0.div_lt_upper_bound; lia).
          assert (64 <= List.length a / 2)
            by (apply Nat.div_le_lower_bound; lia).
          lia. }
        destruct (sum_firstn_skipn n2 a) as [Hs2 Ha2].
        pose proof (sum_abs_nonneg (firstn n2 a)).
        pose proof (sum_abs_nonneg (skipn n2 a)).
        pose proof (sum_abs_bounds (firstn n2 a)).
        pose proof (sum_abs_bounds (skipn n2 a)).
        rewrite (IH (firstn n2 a)) by (rewrite ?length_firstn; lia).
        rewrite (IH (skipn n2 a)) by (rewrite ?length_skipn; lia).
        rewrite float_add_exact by lia. lia.
Qed.

(** The floats of a column of integers and gaps of small magnitude are the
    integers themselves, a gap counting for 0. *)
Lemma float_cells (l : list pyval) :
  forallb number_or_missing l = true ->
  (magnitude l <= exact_float_bound)%Z ->
  sum_Z (map (fun v => round53 (int_of v)) l) = sum_Z (present_amounts l)
  /\ sum_abs (map (fun v => round53 (int_of v)) l) = magnitude l.
Proof.
  induction l as [|v l IH]; intros H Hb; [split; reflexivity|].
  simpl in H. apply andb_true_iff in H. destruct H as [Hv Hl].
  rewrite magnitude_cons in Hb. pose proof (magnitude_nonneg l) as Hm.
  destruct (IH Hl) as [Hs Ha]; [lia|].
  cbn [map]. rewrite sum_Z_cons, sum_abs_cons, Hs, Ha.
  rewrite (round53_exact (int_of v)) by lia.
  rewrite (present_amounts_cons v l Hv), magnitude_cons. split; reflexivity.
Qed.

Lemma float_sum_exact (l : list pyval) :
  forallb number_or_missing l = true ->
  (magnitude l <= exact_float_bound)%Z ->
  float_add 0 (pairwise_sum (List.length l)
                 (map (fun v => round53 (int_of v)) l))
  = sum_Z (present_amounts l).
Proof.
  intros H Hb. destruct (float_cells l H Hb) as [Hs Ha].
  rewrite pairwise_sum_exact by (rewrite ?length_map; lia).
  pose proof (sum_abs_bounds (map (fun v => round53 (int_of v)) l)).
  rewrite float_add_exact by (simpl; lia). lia.
Qed.

(** Nor does a sum of an int64 column wrap around. *)
Lemma int_sum_exact (l : list pyval) :
  forallb number_or_missing l = true ->
  forall acc,
    (Z.abs acc + magnitude l <= exact_float_bound)%Z ->
    fold_left (fun acc v => int64_wrap (acc + int_of v)%Z) l acc
    = (acc + sum_Z (present_amounts l))%Z.
Proof.
  induction l as [|v l IH]; intros H acc Hb.
  - unfold sum_Z. simpl. lia.
  - simpl in H. apply andb_true_iff in H. destruct H as [Hv Hl].
    rewrite magnitude_cons in Hb.
    pose proof (magnitude_nonneg l) as Hm.
    unfold exact_float_bound in *.
    cbn [fold_left].
    rewrite (int64_wrap_exact (acc + int_of v)) by lia.
    rewrite (IH Hl) by lia.
    rewrite (present_amounts_cons v l Hv). lia.
Qed.

Lemma series_sum_numbers (l : list pyval) :
  forallb number_or_missing l = true ->
  (magnitude l <= exact_float_bound)%Z ->
  series_sum l = OK (PyInt (sum_Z (present_amounts l))).
Proof.
  intros H Hb. unfold series_sum. rewrite (numbers_no_text _ H).
  destruct (existsb is_missing l); f_equal; f_equal.
  - apply float_sum_exact; assumption.
  - rewrite (int_sum_exact _ H) by (simpl; lia). reflexivity.
Qed.

(** C4, as stated, fails: with the cells 100 and 'abc' in the Amount column
    of a sheet the sum of the amounts that are present is 100, and the total
    is not computed at all: adding the text to the number raises. *)
Lemma total_amount_text_cell :
  exists df,
    process_excel_file (fun _ => OK text_amount_sheet) (mkUpload xlsx_type "")
    = OK df
    /\ getitem df "Amount" = OK [PyInt 100; PyStr "abc"]
    /\ sum_Z (present_amounts [PyInt 100; PyStr "abc"]) = 100%Z
    /\ total_amount df = Err (TypeError "unsupported operand type(s) for +").
Proof.
  eexists. split; [vm_compute; reflexivity|].
  repeat split; vm_compute; reflexivity.
Qed.

(** C4 (amended): the total is the "unavailable" marker when the header has
    no Amount column.  When exactly one column is headed Amount, and every
    cell of it is an integer or missing, and the magnitudes of the integers
    add up to no more than 2^53 (so that no sum is rounded or wraps around),
    the total is the sum of the integers that are present, the missing cells
    being skipped, and so is not the marker.  Nothing is parsed: a cell that
    holds text is not skipped. *)
Theorem total_amount_of_numbers (df : DataFrame) :
  (has_column "Amount" df = false -> total_amount df = OK unavailable)
  /\ (label_count "Amount" df = 1 ->
      exists amounts,
        getitem df "Amount" = OK amounts
        /\ (forallb number_or_missing amounts = true ->
            (magnitude amounts <= exact_float_bound)%Z ->
            total_amount df = OK (PyInt (sum_Z (present_amounts amounts)))
            /\ total_amount df <> OK unavailable)).
Proof.
  unfold total_amount. split; intros H; [rewrite H; reflexivity|].
  apply label_count_has_column in H. rewrite H.
  destruct (has_column_getitem _ _ H) as [amounts Ha].
  exists amounts. split; [assumption|]. intros Hn Hb.
  rewrite Ha. cbn [rbind]. rewrite (series_sum_numbers _ Hn Hb).
  split; [reflexivity|discriminate].
Qed.

Lemma total_amount_of_numbers_witness :
  total_amount (mkFrame 1 [(PyStr "Narration", [PyStr "cash wdl"])])
  = OK unavailable
  /\ total_amount (mkFrame 3 [(PyStr "Narration", [PyNone; PyNone; PyNone]);
                              (PyStr "Amount", [PyInt 100; PyNaN; PyInt 50])])
     = OK (PyInt 150).
Proof.
  split.
  - apply (proj1 (total_amount_of_numbers
                    (mkFrame 1 [(PyStr "Narration", [PyStr "cash wdl"])]))).
    reflexivity.
  - destruct (proj2 (total_amount_of_numbers
                       (mkFrame 3 [(PyStr "Narration", [PyNone; PyNone; PyNone]);
                                   (PyStr "Amount", [PyInt 100; PyNaN; PyInt 50])]))
                    eq_refl) as (amounts & Ha & Ht).
    vm_compute in Ha. inversion Ha; subst amounts.
    apply (proj1 (Ht eq_refl ltac:(vm_compute; discriminate))).
Defined.

(** ** The csv loader of the specification *)












(** ** The control flow of [main] *)

Lemma extract_text_from_pdf_concat (pages : list string) :
  extract_text_from_pdf pages = String.concat "" pages.
Proof.
  unfold extract_text_from_pdf.
  assert (H : forall acc, fold_left (fun text page => text ++ page) pages acc
                          = acc ++ String.concat "" pages).
  { induction pages as [|p pages IH]; intros acc; simpl.
    - rewrite append_nil_r. reflexivity.
    - rewrite IH. destruct pages as [|q pages]; simpl.
      + rewrite !append_nil_r. reflexivity.
      + rewrite append_assoc. reflexivity. }
  apply H.
Qed.

Lemma extract_text_from_docx_concat (paragraphs : list string) :
  extract_text_from_docx paragraphs
  = String.concat "" (map (fun p => p ++ String nl "") paragraphs).
Proof.
  unfold extract_text_from_docx.
  assert (H : forall acc,
             fold_left (fun text p => text ++ (p ++ String nl "")) paragraphs acc
             = acc ++ String.concat ""
                        (map (fun p => p ++ String nl "") paragraphs)).
  { induction paragraphs as [|p ps IH]; intros acc; simpl.
    - rewrite append_nil_r. reflexivity.
    - rewrite IH. destruct ps as [|q ps]; simpl.
      + rewrite !append_nil_r. reflexivity.
      + rewrite !append_assoc. reflexivity. }
  apply H.
Qed.

(** The worked example of the specification: a sheet with the header
    Narration, Amount and two rows. *)
Example main_two_rows :
  main (fun _ => Err (LibraryError "not called"))
       (fun _ => OK [ [PyStr "Narration"; PyStr "Amount"];
                      [PyStr "UPI to JOHN SMITH"; PyInt 100];
                      [PyStr "cash wdl"; PyInt 50] ])
       (Some (mkUpload xlsx_type ""))
  = [ StTitle "Upload Transaction File";
      StWriteType "Uploaded File Type:" xlsx_type;
      StSubheader "Extracted Information";
      StWriteFrame
        (mkFrame 2
           [ (PyStr "Narration", [PyStr "UPI to JOHN SMITH"; PyStr "cash wdl"]);
             (PyStr "Amount", [PyInt 100; PyInt 50]);
             (PyStr "Name", [PyStr "JOHN SMITH"; PyNone]);
             (PyStr "Payment_Method", [PyStr "UPI"; PyNone]);
             (PyStr "Payment_Platform", [PyNone; PyStr "ATM"]) ]);
      StTotalAmount (PyInt 150) ].
Proof. vm_compute. reflexivity. Qed.

Section MainFlow.

Variable read_csv : string -> result DataFrame.
Variable sheet_rows : string -> result (list (list pyval)).

(** C3, on the code: an upload whose declared type is none of the four is
    told 'Unsupported file format' before anything is parsed, but [main] does
    not stop there; it goes on to read [df], which no branch has bound, and
    shows a second error for the UnboundLocalError this raises. *)
Theorem unsupported_type_two_errors (f : upload) :
  supported (file_type f) = false ->
  main read_csv sheet_rows (Some f)
  = [ StTitle "Upload Transaction File";
      StWriteType "Uploaded File Type:" (file_type f);
      StError "Unsupported file format";
      StErrorProcessing (UnboundLocalError "df") ].
Proof.
  unfold supported. intros H.
  apply orb_false_iff in H. destruct H as [H Hdocx].
  apply orb_false_iff in H. destruct H as [H Hpdf].
  apply orb_false_iff in H. destruct H as [Hcsv Hxlsx].
  unfold main, main_body, load_frame.
  rewrite Hcsv, Hxlsx, Hpdf, Hdocx. reflexivity.
Qed.

(** C5, on the code: for a PDF and for a word-processing upload [main] calls
    a function the module never defines; the NameError is shown as the one
    error of the upload and no record is produced. *)
Theorem document_upload_name_error (bytes : string) :
  main read_csv sheet_rows (Some (mkUpload pdf_type bytes))
  = [ StTitle "Upload Transaction File";
      StWriteType "Uploaded File Type:" pdf_type;
      StErrorProcessing (NameError "process_pdf_file") ]
  /\ main read_csv sheet_rows (Some (mkUpload docx_type bytes))
     = [ StTitle "Upload Transaction File";
         StWriteType "Uploaded File Type:" docx_type;
         StErrorProcessing (NameError "process_docx_file") ].
Proof. split; reflexivity. Qed.

End MainFlow.

Lemma unsupported_type_two_errors_witness :
  main (fun _ => Err (LibraryError "not called")) (fun _ => OK [])
       (Some (mkUpload "application/vnd.ms-excel"
                       "Narration,Amount
UPI to JOHN SMITH,100
"))
  = [ StTitle "Upload Transaction File";
      StWriteType "Uploaded File Type:" "application/vnd.ms-excel";
      StError "Unsupported file format";
      StErrorProcessing (UnboundLocalError "df") ].
Proof.
  apply (unsupported_type_two_errors _ _
           (mkUpload "application/vnd.ms-excel"
                     "Narration,Amount
UPI to JOHN SMITH,100
")).
  reflexivity.
Defined.

(** ** What the extractors can and cannot return *)

Lemma has_upper_append (a b : string) :
  has_upper (a ++ b) = has_upper a || has_upper b.
Proof. induction a as [|c a IH]; simpl; [reflexivity|]. rewrite IH. apply orb_assoc. Qed.

Lemma upper_head_has_upper (s : string) :
  upper_head s = true -> has_upper s = true.
Proof. destruct s as [|c s]; simpl; [discriminate|]. intros ->. reflexivity. Qed.

Lemma name_result_occ (v : pyval) (t : string) :
  extract_sender_receiver_name v = OK (Some t) ->
  exists s pre post, handle_nan v = PyStr s /\ first_name_occ s pre t post.
Proof.
  unfold extract_sender_receiver_name.
  destruct (handle_nan_text v) as [s Hs]. rewrite Hs. simpl.
  pose proof (name_findall_spec s) as H. intros Heq.
  destruct (first_or_none (findall name_re s)) as [t'|]; [|discriminate].
  inversion Heq; subst t'. destruct H as (pre & post & H). eauto.
Qed.

Lemma method_result_occ (v : pyval) (t : string) :
  extract_payment_method v = OK (Some t) ->
  exists s pre post, handle_nan v = PyStr s /\ first_method_occ s pre t post.
Proof.
  unfold extract_payment_method.
  destruct (handle_nan_text v) as [s Hs]. rewrite Hs. simpl.
  pose proof (method_findall_spec s) as H. intros Heq.
  destruct (first_or_none (findall method_re s)) as [t'|]; [|discriminate].
  inversion Heq; subst t'. destruct H as (pre & post & H). eauto.
Qed.

Lemma contains_here (sub s : string) :
  starts_with sub s = true -> contains sub s = true.
Proof. intros H. destruct s; simpl; rewrite H; reflexivity. Qed.

Lemma contains_append_l (sub pre s : string) :
  contains sub s = true -> contains sub (pre ++ s) = true.
Proof.
  intros H. induction pre as [|c pre IH]; simpl; [assumption|].
  rewrite IH. apply orb_true_r.
Qed.

(** X1: whatever the cell holds, a payment method that is returned is one of
    the four texts UPI, IMPS, NEFT, RTGS, and it occurs in the narration
    text. *)
Theorem payment_method_in_tokens (v : pyval) (t : string) :
  extract_payment_method v = OK (Some t) ->
  In t method_tokens /\ contains t (text_of (handle_nan v)) = true.
Proof.
  intros H. destruct (method_result_occ _ _ H)
    as (s & pre & post & Hs & (Hocc & Hin & _) & _).
  split; [assumption|]. rewrite Hs. simpl. subst s.
  apply contains_append_l, contains_here, starts_with_append.
Qed.

Lemma payment_method_in_tokens_witness :
  extract_payment_method (PyStr "BY TRANSFER-NEFT*HDFC0000001*UPI") = OK (Some "NEFT")
  /\ In "NEFT" method_tokens.
Proof.
  assert (H : extract_payment_method (PyStr "BY TRANSFER-NEFT*HDFC0000001*UPI")
              = OK (Some "NEFT")) by (vm_compute; reflexivity).
  split; [exact H|].
  exact (proj1 (payment_method_in_tokens _ _ H)).
Defined.

Lemma upper_word_chars (u : string) :
  upper_word u -> all_chars name_char u = true.
Proof.
  intros [_ Hu]. induction u as [|c u IH]; simpl; [reflexivity|].
  simpl in Hu. apply andb_true_iff in Hu. destruct Hu as [Hc Hu].
  unfold name_char at 1. rewrite Hc, (IH Hu). reflexivity.
Qed.

Lemma all_chars_append (f : ascii -> bool) (a b : string) :
  all_chars f (a ++ b) = all_chars f a && all_chars f b.
Proof. induction a as [|c a IH]; simpl; [reflexivity|]. rewrite IH. apply andb_assoc. Qed.

Lemma upper_word_last (u : string) :
  upper_word u -> exists c, last_char None u = Some c /\ is_upper c = true.
Proof.
  intros [Hne Hu]. destruct u as [|c u]; [congruence|]. clear Hne.
  simpl in *. apply andb_true_iff in Hu. destruct Hu as [Hc Hu].
  revert c Hc. induction u as [|d u IH]; intros c Hc; simpl; [eauto|].
  simpl in Hu. apply andb_true_iff in Hu. destruct Hu as [Hd Hu]. eauto.
Qed.

Lemma last_char_append (a : string) (c : ascii) (b : string) (p : option ascii) :
  last_char p (a ++ String c b) = last_char (Some c) b.
Proof. revert p. induction a as [|d a IH]; intros p; simpl; auto. Qed.

Lemma last_char_some (b : string) (c : ascii) (p : option ascii) :
  last_char (Some c) b = last_char p (String c b).
Proof. reflexivity. Qed.

Lemma name_run_shape (t : string) :
  name_run t ->
  all_chars name_char t = true /\ 3 <= length t /\ upper_head t = true
  /\ exists c, last_char None t = Some c /\ is_upper c = true.
Proof.
  induction 1 as [u w v Hu Hw Hv|u w t Hu Hw Hrun (IHc & IHl & IHh & IHe)].
  - repeat split.
    + rewrite all_chars_append. simpl. unfold name_char at 2.
      rewrite Hw, orb_true_r, !upper_word_chars by assumption. reflexivity.
    + rewrite length_append. simpl. destruct Hu as [Hu _], Hv as [Hv _].
      destruct u; [congruence|]. destruct v; [congruence|]. simpl. lia.
    + pose proof (name_run_upper_head _ "" (run_two _ _ _ Hu Hw Hv)) as H.
      rewrite append_nil_r in H. exact H.
    + rewrite last_char_append. destruct (upper_word_last _ Hv) as (c & Hc & Hup).
      exists c. split; [|assumption]. destruct Hv as [Hv _].
      destruct v; [congruence|]. exact Hc.
  - repeat split.
    + rewrite all_chars_append. simpl. unfold name_char at 2.
      rewrite Hw, orb_true_r, IHc, upper_word_chars by assumption. reflexivity.
    + rewrite length_append. simpl. lia.
    + pose proof (name_run_upper_head _ "" (run_more _ _ _ Hu Hw Hrun)) as H.
      rewrite append_nil_r in H. exact H.
    + rewrite last_char_append. destruct IHe as (c & Hc & Hup).
      exists c. split; [|assumption]. destruct t; [simpl in IHl; lia|]. exact Hc.
Qed.

(** X2: whatever the cell holds, a name that is returned is made of capital
    letters A-Z and whitespace only, begins and ends with a capital, and has
    at least three characters. *)
Theorem name_result_shape (v : pyval) (t : string) :
  extract_sender_receiver_name v = OK (Some t) ->
  all_chars name_char t = true /\ 3 <= length t /\ upper_head t = true
  /\ exists c, last_char None t = Some c /\ is_upper c = true.
Proof.
  intros H. destruct (name_result_occ _ _ H)
    as (s & pre & post & _ & (_ & _ & Hrun & _) & _).
  apply name_run_shape. assumption.
Qed.

Lemma name_result_shape_witness :
  extract_sender_receiver_name (PyStr "UPI-JOHN SMITH-john@okaxis")
  = OK (Some "JOHN SMITH")
  /\ all_chars name_char "JOHN SMITH" = true.
Proof.
  assert (H : extract_sender_receiver_name (PyStr "UPI-JOHN SMITH-john@okaxis")
              = OK (Some "JOHN SMITH")) by (vm_compute; reflexivity).
  split; [exact H|].
  exact (proj1 (name_result_shape _ _ H)).
Defined.

Lemma no_capital_no_name (s : string) :
  has_upper s = false -> extract_sender_receiver_name (PyStr s) = OK None.
Proof.
  intros Hs. unfold extract_sender_receiver_name. simpl.
  pose proof (name_findall_spec s) as H.
  destruct (first_or_none (findall name_re s)) as [t|]; [|reflexivity].
  exfalso. destruct H as (pre & post & (Hocc & _ & Hrun & _) & _).
  rewrite Hocc, has_upper_append in Hs. apply orb_false_iff in Hs.
  destruct Hs as [_ Hs].
  rewrite (upper_head_has_upper _ (name_run_upper_head t post Hrun)) in Hs.
  discriminate.
Qed.

Lemma no_capital_no_method (s : string) :
  has_upper s = false -> extract_payment_method (PyStr s) = OK None.
Proof.
  intros Hs. unfold extract_payment_method. simpl.
  pose proof (method_findall_spec s) as H.
  destruct (first_or_none (findall method_re s)) as [t|]; [|reflexivity].
  exfalso. destruct H as (pre & post & (Hocc & Hin & _) & _).
  rewrite Hocc, !has_upper_append in Hs. apply orb_false_iff in Hs.
  destruct Hs as [_ Hs]. apply orb_false_iff in Hs. destruct Hs as [Hs _].
  simpl in Hin.
  destruct Hin as [<-|[<-|[<-|[<-|[]]]]]; vm_compute in Hs; discriminate.
Qed.

(** X3: a narration text without a capital letter A-Z has no name and no
    payment method: lower-case "upi" or "john smith" are not found. *)
Theorem no_capital_no_name_no_method (s : string) :
  has_upper s = false ->
  extract_sender_receiver_name (PyStr s) = OK None
  /\ extract_payment_method (PyStr s) = OK None.
Proof.
  intros Hs. split.
  - apply no_capital_no_name. assumption.
  - apply no_capital_no_method. assumption.
Qed.

Lemma no_capital_no_name_no_method_witness :
  extract_sender_receiver_name (PyStr "upi to john smith") = OK None
  /\ extract_payment_method (PyStr "upi to john smith") = OK None.
Proof. apply (no_capital_no_name_no_method "upi to john smith"). reflexivity. Defined.

Lemma digit_not_upper (c : ascii) :
  digit_or_minus c = true -> is_upper c = false.
Proof. destruct c as [[] [] [] [] [] [] [] []]; vm_compute; congruence. Qed.

Lemma digit_lower (c : ascii) :
  digit_or_minus c = true -> digit_or_minus (lower_char c) = true.
Proof. destruct c as [[] [] [] [] [] [] [] []]; vm_compute; congruence. Qed.

Lemma uint_text_digits (d : Decimal.uint) :
  all_chars digit_or_minus (NilEmpty.string_of_uint d) = true.
Proof. induction d; simpl; auto. Qed.

Lemma int_text_digits (z : Z) :
  all_chars digit_or_minus (py_str (PyInt z)) = true.
Proof.
  simpl. destruct (Z.to_int z) as [d|d]; simpl;
    destruct d; simpl; try reflexivity; apply uint_text_digits.
Qed.

Lemma all_chars_no_upper (s : string) :
  all_chars digit_or_minus s = true -> has_upper s = false.
Proof.
  induction s as [|c s IH]; simpl; [reflexivity|]. intros H.
  apply andb_true_iff in H. destruct H as [Hc H].
  rewrite (digit_not_upper c Hc), (IH H). reflexivity.
Qed.

Lemma all_chars_lower (s : string) :
  all_chars digit_or_minus s = true -> all_chars digit_or_minus (lower s) = true.
Proof.
  induction s as [|c s IH]; simpl; [reflexivity|]. intros H.
  apply andb_true_iff in H. destruct H as [Hc H].
  rewrite (digit_lower c Hc), (IH H). reflexivity.
Qed.

Lemma all_chars_has_char (f : ascii -> bool) (c : ascii) (s : string) :
  all_chars f s = true -> f c = false -> has_char c s = false.
Proof.
  intros H Hc. induction s as [|a s IH]; simpl; [reflexivity|].
  simpl in H. apply andb_true_iff in H. destruct H as [Ha H].
  rewrite (IH H), orb_false_r. apply Ascii.eqb_neq. congruence.
Qed.

Lemma contains_head_char (c : ascii) (k s : string) :
  contains (String c k) s = true -> has_char c s = true.
Proof.
  induction s as [|a s IH]; simpl; [discriminate|]. intros H.
  apply orb_true_iff in H. destruct H as [H|H].
  - apply andb_true_iff in H. destruct H as [H _].
    rewrite Ascii.eqb_sym, H. reflexivity.
  - rewrite (IH H). apply orb_true_r.
Qed.

Lemma digits_contain_no (c : ascii) (k s : string) :
  all_chars digit_or_minus s = true -> digit_or_minus c = false ->
  contains (String c k) s = false.
Proof.
  intros Hs Hc. destruct (contains (String c k) s) eqn:H; [|reflexivity].
  apply contains_head_char in H.
  rewrite (all_chars_has_char _ _ _ Hs Hc) in H. discriminate.
Qed.

(** X4: a narration cell that holds an integer is classified by its decimal
    text, in which there is nothing to find: no name, no payment method and
    no platform. *)
Theorem integer_cell_unclassified (z : Z) :
  extract_sender_receiver_name (PyInt z) = OK None
  /\ extract_payment_method (PyInt z) = OK None
  /\ extract_payment_platform (PyInt z) = OK None.
Proof.
  pose proof (int_text_digits z) as Hd.
  pose proof (all_chars_no_upper _ Hd) as Hu.
  split; [exact (no_capital_no_name _ Hu)|].
  split; [exact (no_capital_no_method _ Hu)|].
  unfold extract_payment_platform, handle_nan. cbn [notnull str_lower rbind].
  pose proof (all_chars_lower _ Hd) as Hl.
  rewrite !(digits_contain_no _ _ _ Hl) by reflexivity. reflexivity.
Qed.

Lemma has_triple_append_r (a b : string) :
  has_triple b = true -> has_triple (a ++ b) = true.
Proof.
  intros H. induction a as [|c a IH]; [exact H|].
  change (String c a ++ b) with (String c (a ++ b)).
  cbn [has_triple]. rewrite IH. apply orb_true_r.
Qed.

Lemma has_triple_append_l (a b : string) :
  has_triple a = true -> has_triple (a ++ b) = true.
Proof.
  induction a as [|c a IH]; [discriminate|]. intros H.
  change (String c a ++ b) with (String c (a ++ b)).
  cbn [has_triple] in *. apply orb_true_iff in H. destruct H as [H|H].
  - destruct a as [|w [|d a]]; try discriminate. simpl. rewrite H. reflexivity.
  - rewrite (IH H). apply orb_true_r.
Qed.

Lemma upper_word_triple (u : string) (w : ascii) (r : string) :
  upper_word u -> is_space w = true -> upper_head r = true ->
  has_triple (u ++ String w r) = true.
Proof.
  intros [Hne Hu] Hw Hr. destruct r as [|d r]; [discriminate|]. simpl in Hr.
  induction u as [|c u IH]; [congruence|].
  simpl in Hu. apply andb_true_iff in Hu. destruct Hu as [Hc Hu].
  change (String c u ++ String w (String d r))
    with (String c (u ++ String w (String d r))).
  cbn [has_triple]. destruct u as [|c2 u].
  - simpl. rewrite Hc, Hw, Hr. reflexivity.
  - rewrite IH by (assumption || discriminate). apply orb_true_r.
Qed.

Lemma name_run_triple (t : string) : name_run t -> has_triple t = true.
Proof.
  intros [u w v Hu Hw Hv|u w t' Hu Hw Hrun]; apply upper_word_triple;
    try assumption.
  - destruct Hv as [Hne Hv]. destruct v; [congruence|]. simpl in *.
    apply andb_true_iff in Hv. tauto.
  - pose proof (name_run_upper_head t' "" Hrun) as H.
    rewrite append_nil_r in H. exact H.
Qed.

(** X5: there is a name only where a capital, exactly one whitespace
    character and a capital follow each other; a text without such a place,
    as two words with two spaces between them, has no name. *)
Theorem name_needs_single_separator (s : string) :
  has_triple s = false -> extract_sender_receiver_name (PyStr s) = OK None.
Proof.
  intros Hs. unfold extract_sender_receiver_name. simpl.
  pose proof (name_findall_spec s) as H.
  destruct (first_or_none (findall name_re s)) as [t|]; [|reflexivity].
  exfalso. destruct H as (pre & post & (Hocc & _ & Hrun & _) & _).
  rewrite Hocc in Hs.
  rewrite (has_triple_append_r _ _
             (has_triple_append_l _ post (name_run_triple _ Hrun))) in Hs.
  discriminate.
Qed.

Lemma name_needs_single_separator_witness :
  extract_sender_receiver_name (PyStr "JOHN  SMITH paid Rs.100") = OK None.
Proof.
  apply (name_needs_single_separator "JOHN  SMITH paid Rs.100"). reflexivity.
Defined.

(** ** The platform of a narration inside a longer one *)

Lemma starts_with_ci_append (k s post : string) :
  starts_with_ci k s = true -> starts_with_ci k (s ++ post) = true.
Proof.
  revert s. induction k as [|a k IH]; intros [|b s] H; simpl in *;
    try reflexivity; try discriminate.
  apply andb_true_iff in H. destruct H as [Hc H].
  rewrite Hc, (IH _ H). reflexivity.
Qed.

Lemma contains_ci_unfold (k s : string) :
  contains_ci k s =
  starts_with_ci k s
  || match s with "" => false | String _ s' => contains_ci k s' end.
Proof. destruct s; reflexivity. Qed.

Lemma contains_ci_context (k pre s post : string) :
  contains_ci k s = true -> contains_ci k (pre ++ s ++ post) = true.
Proof.
  intros H. induction pre as [|c pre IH].
  - simpl. induction s as [|b s IHs].
    + simpl in H. rewrite orb_false_r in H. rewrite contains_ci_unfold.
      change ("" ++ post) with post.
      replace (starts_with_ci k post) with true; [reflexivity|].
      destruct k; [reflexivity|discriminate].
    + rewrite contains_ci_unfold in H. apply orb_true_iff in H.
      change (String b s ++ post) with (String b (s ++ post)).
      rewrite contains_ci_unfold. destruct H as [H|H].
      * change (String b (s ++ post)) with (String b s ++ post).
        rewrite (starts_with_ci_append _ _ post H). reflexivity.
      * rewrite (IHs H). apply orb_true_r.
  - change (String c pre ++ s ++ post) with (String c (pre ++ s ++ post)).
    rewrite contains_ci_unfold, IH. apply orb_true_r.
Qed.

Lemma platform_label_inj (p q : platform) :
  platform_label p = platform_label q -> p = q.
Proof. destruct p, q; simpl; intros H; try reflexivity; discriminate. Qed.

Ltac keyword_case Hc s k :=
  let E := fresh "E" in
  destruct (contains_ci k s) eqn:E; [rewrite (Hc _ E)|].

(** X6: text added before or after a narration never takes its platform
    away: the longer narration has a platform too, the same one or one of a
    rule that comes earlier in the table. *)
Theorem platform_kept_in_context (pre s post : string) (p : platform) :
  extract_payment_platform (PyStr s) = OK (Some (platform_label p)) ->
  exists q,
    extract_payment_platform (PyStr (pre ++ s ++ post))
    = OK (Some (platform_label q))
    /\ rank q <= rank p.
Proof.
  rewrite !platform_by_rules. intros H.
  assert (Hp : classify s = Some p).
  { destruct (classify s) as [p'|]; [|discriminate]. simpl in H.
    inversion H as [Hl]. apply platform_label_inj in Hl. congruence. }
  clear H. revert Hp. unfold classify, platform_rules, rule_matches.
  cbn [find existsb fst snd option_map].
  pose proof (fun k => contains_ci_context k pre s post) as Hc.
  keyword_case Hc s "phone pe"; keyword_case Hc s "@ybl";
  keyword_case Hc s "@axl"; keyword_case Hc s "paytm";
  keyword_case Hc s "bharatpe"; keyword_case Hc s "cash wdl";
  keyword_case Hc s "@ok";
  cbn [orb]; intros Hp; inversion Hp; subst p;
  repeat match goal with
         | |- context [contains_ci ?k (pre ++ s ++ post)] =>
             destruct (contains_ci k (pre ++ s ++ post))
         end;
  cbn [orb option_map snd]; eexists; (split; [reflexivity|simpl; lia]).
Qed.

Lemma platform_kept_in_context_witness :
  extract_payment_platform (PyStr "ATM CASH WDL") = OK (Some "ATM")
  /\ exists q,
       extract_payment_platform (PyStr ("paytm " ++ "ATM CASH WDL" ++ " 500"))
       = OK (Some (platform_label q))
       /\ rank q <= rank ATM.
Proof.
  split; [vm_compute; reflexivity|].
  apply (platform_kept_in_context "paytm " "ATM CASH WDL" " 500" ATM).
  vm_compute. reflexivity.
Defined.

(** ** The document text extractors *)




Lemma docx_fold (paragraphs : list string) :
  forall acc,
    fold_left (fun text p => text ++ (p ++ String nl "")) paragraphs acc
    = acc ++ extract_text_from_docx paragraphs.
Proof.
  unfold extract_text_from_docx.
  induction paragraphs as [|p ps IH]; intros acc; simpl.
  - rewrite append_nil_r. reflexivity.
  - rewrite (IH (acc ++ _)), (IH (p ++ _)), !append_assoc. reflexivity.
Qed.

Lemma docx_cons (p : string) (paragraphs : list string) :
  extract_text_from_docx (p :: paragraphs)
  = p ++ String nl (extract_text_from_docx paragraphs).
Proof.
  unfold extract_text_from_docx at 1. simpl. rewrite docx_fold, append_assoc.
  reflexivity.
Qed.

Lemma line_split_unique (p q a b : string) :
  has_char nl p = false -> has_char nl q = false ->
  p ++ String nl a = q ++ String nl b -> p = q /\ a = b.
Proof.
  revert q. induction p as [|c p IH]; intros [|d q] Hp Hq H; simpl in *.
  - inversion H. auto.
  - inversion H; subst d. rewrite Ascii.eqb_refl in Hq. discriminate.
  - inversion H; subst c. rewrite Ascii.eqb_refl in Hp. discriminate.
  - inversion H; subst d. apply orb_false_iff in Hp, Hq.
    destruct (IH q) as [-> ->]; tauto.
Qed.

(** X8: the text of a word-processing document keeps its paragraphs apart:
    every paragraph, the last one too, is followed by a newline, so two
    documents whose paragraphs hold no newline and whose texts are equal
    have the same paragraphs. *)
Theorem docx_text_keeps_paragraphs (ps qs : list string) :
  forallb (fun p => negb (has_char nl p)) ps = true ->
  forallb (fun p => negb (has_char nl p)) qs = true ->
  extract_text_from_docx ps = extract_text_from_docx qs ->
  ps = qs.
Proof.
  revert qs. induction ps as [|p ps IH]; intros [|q qs] Hp Hq H.
  - reflexivity.
  - rewrite docx_cons in H. destruct q; discriminate.
  - rewrite docx_cons in H. destruct p; discriminate.
  - rewrite !docx_cons in H. simpl in Hp, Hq.
    apply andb_true_iff in Hp, Hq. destruct Hp as [Hp Hps], Hq as [Hq Hqs].
    apply negb_true_iff in Hp, Hq.
    destruct (line_split_unique _ _ _ _ Hp Hq H) as [-> Ht].
    f_equal. apply IH; assumption.
Qed.

Lemma docx_text_keeps_paragraphs_witness :
  extract_text_from_docx ["UPI to"; "JOHN SMITH"]
  = "UPI to" ++ String nl ("JOHN SMITH" ++ String nl "")
  /\ ["UPI to"; "JOHN SMITH"] = ["UPI to"; "JOHN SMITH"].
Proof.
  split; [reflexivity|].
  apply (docx_text_keeps_paragraphs ["UPI to"; "JOHN SMITH"]
           ["UPI to"; "JOHN SMITH"]); reflexivity.
Defined.

(** ** Sheets *)

Lemma width_rectangular (rows : list (list pyval)) (n : nat) :
  rows <> [] ->
  forallb (fun row => (List.length row =? n)%nat) rows = true ->
  width rows = n.
Proof.
  induction rows as [|row rows IH]; intros Hne H; [congruence|].
  simpl in H. apply andb_true_iff in H. destruct H as [Hr H].
  apply Nat.eqb_eq in Hr. unfold width in *. simpl. rewrite Hr.
  destruct rows as [|row2 rows]; [simpl; lia|].
  rewrite IH by (assumption || discriminate). lia.
Qed.

Lemma find_column (body : list (list pyval)) (name : string) :
  forall header k j,
    nth_error header j = Some (PyStr name) ->
    (forall j' l, j' < j -> nth_error header j' = Some l ->
                  label_is name l = false) ->
    find (fun c => label_is name (fst c))
         (map (fun jl => (snd jl, infer_column (column_at body (fst jl))))
              (combine (seq k (List.length header)) header))
    = Some (PyStr name, infer_column (column_at body (k + j))).
Proof.
  induction header as [|l header IH]; intros k j Hj Hfirst.
  - destruct j; discriminate.
  - simpl. destruct j as [|j].
    + simpl in Hj. inversion Hj; subst l. simpl. rewrite String.eqb_refl.
      rewrite Nat.add_0_r. reflexivity.
    + rewrite (Hfirst 0 l) by (lia || reflexivity).
      simpl in Hj. rewrite (IH (S k) j Hj).
      * rewrite Nat.add_succ_r. reflexivity.
      * intros j' l' Hlt Hl. apply (Hfirst (S j') l'); [lia|exact Hl].
Qed.

Lemma column_at_nth (body : list (list pyval)) (i j : nat) (row : list pyval) :
  nth_error body i = Some row -> j < List.length row ->
  nth_error (column_at body j) i = nth_error row j.
Proof.
  intros Hi Hj. unfold column_at.
  rewrite nth_error_map, Hi. simpl.
  symmetry. apply nth_error_nth'. assumption.
Qed.

Lemma infer_column_length (col : list pyval) :
  List.length (infer_column col) = List.length col.
Proof.
  unfold infer_column. destruct (numbers_with_gaps col); [|reflexivity].
  apply length_map.
Qed.

Lemma infer_column_nth (col : list pyval) (i : nat) :
  nth_error (infer_column col) i
  = option_map (fun v => if numbers_with_gaps col then as_float v else v)
               (nth_error col i).
Proof.
  unfold infer_column. destruct (numbers_with_gaps col).
  - apply nth_error_map.
  - destruct (nth_error col i); reflexivity.
Qed.

Lemma frame_columns_wf (body : list (list pyval)) (header : list pyval) :
  forall k,
    forallb (fun c => (List.length (snd c) =? List.length body)%nat)
            (map (fun jl => (snd jl, infer_column (column_at body (fst jl))))
                 (combine (seq k (List.length header)) header)) = true.
Proof.
  induction header as [|l header IH]; intros k; simpl; [reflexivity|].
  rewrite IH, andb_true_r. rewrite infer_column_length.
  unfold column_at. rewrite length_map.
  apply Nat.eqb_refl.
Qed.

Section Sheets.

Variable sheet_rows : string -> result (list (list pyval)).

(** X9: a sheet whose rows are all as wide as its first row loads as a frame
    with one row for each row after the first, in sheet order, every column
    with one cell for each row.  Under a header text that labels one column
    only, the cell of row i goes back to the value the sheet has in row i at
    the position of that header text: a text is kept as it is; an integer is
    kept as it is, unless its column has a gap and no text, where it is the
    nearest float; a gap is a missing cell. *)
Theorem excel_cells_by_header (file : upload) (header : list pyval)
  (body : list (list pyval)) :
  sheet_rows (file_bytes file) = OK (header :: body) ->
  forallb (fun row => (List.length row =? List.length header)%nat) body = true ->
  exists df,
    process_excel_file sheet_rows file = OK df
    /\ nrows df = List.length body
    /\ wf_frame df = true
    /\ forall i j row name,
         nth_error body i = Some row ->
         nth_error header j = Some (PyStr name) ->
         (forall j' l, j' <> j -> nth_error header j' = Some l ->
                       label_is name l = false) ->
         exists v v',
           nth_error row j = Some v
           /\ cell df name i = Some v'
           /\ (is_text v = true -> v' = v)
           /\ (is_int v = true ->
               v' = if numbers_with_gaps (column_at body j)
                    then as_float v else v)
           /\ (is_missing v = true -> is_missing v' = true).
Proof.
  intros Hs Hrect. unfold process_excel_file. rewrite Hs. cbn [rbind].
  unfold pd_DataFrame.
  replace (match body with
           | [] => true
           | _ :: _ => (width body =? List.length header)%nat
           end) with true.
  - eexists. split; [reflexivity|]. split; [reflexivity|]. split.
    + unfold wf_frame. simpl. apply frame_columns_wf.
    + intros i j row name Hi Hj Hone.
      assert (Hlt : j < List.length row).
      { rewrite forallb_forall in Hrect.
        pose proof (Hrect row (nth_error_In _ _ Hi)) as Hw.
        apply Nat.eqb_eq in Hw. rewrite Hw.
        apply nth_error_Some. congruence. }
      destruct (nth_error row j) as [v|] eqn:Hv;
        [|apply nth_error_None in Hv; lia].
      exists v, (if numbers_with_gaps (column_at body j) then as_float v else v).
      split; [reflexivity|]. split.
      * unfold cell, getitem. simpl.
        rewrite (find_column body name header 0 j Hj)
          by (intros j' l Hj' Hl; apply (Hone j' l); [lia|exact Hl]).
        simpl. rewrite infer_column_nth.
        rewrite (column_at_nth body i j row Hi Hlt), Hv. reflexivity.
      * destruct (numbers_with_gaps (column_at body j));
          destruct v; repeat split; intros H;
            try reflexivity; try discriminate H.
  - destruct body as [|row body]; [reflexivity|]. symmetry.
    apply Nat.eqb_eq. apply width_rectangular; [discriminate|assumption].
Qed.

End Sheets.

Lemma excel_cells_by_header_witness :
  exists df,
    process_excel_file (fun _ => OK text_amount_sheet) (mkUpload xlsx_type "")
    = OK df
    /\ nrows df = 2
    /\ cell df "Amount" 1 = Some (PyStr "abc").
Proof.
  destruct (excel_cells_by_header (fun _ => OK text_amount_sheet)
              (mkUpload xlsx_type "")
              [PyStr "Narration"; PyStr "Amount"]
              [[PyStr "a"; PyInt 100]; [PyStr "b"; PyStr "abc"]]
              eq_refl eq_refl) as (df & Hdf & Hn & _ & Hcell).
  exists df. split; [exact Hdf|]. split; [exact Hn|].
  destruct (Hcell 1 1 [PyStr "b"; PyStr "abc"] "Amount" eq_refl eq_refl)
    as (v & v' & Hv & Hc & Ht & _).
  - intros [|[|j']] l Hne Hl; simpl in Hl; try lia.
    + inversion Hl. reflexivity.
    + destruct j'; discriminate.
  - simpl in Hv. inversion Hv; subst v. rewrite Hc, (Ht eq_refl). reflexivity.
Defined.

(** ** Enrichment *)

Lemma getitem_missing (df : DataFrame) (name : string) :
  has_column name df = false -> getitem df name = Err (KeyError name).
Proof.
  unfold has_column, getitem.
  induction (columns df) as [|c cols IH]; simpl; [reflexivity|].
  destruct (label_is name (fst c)); simpl; [discriminate|assumption].
Qed.

Lemma series_apply_total (f : pyval -> result (option string)) :
  (forall v, exists o, f v = OK o) ->
  forall series, exists l, series_apply f series = OK l.
Proof.
  intros Hf series. induction series as [|v series [l IH]]; simpl; [eauto|].
  destruct (Hf v) as [o ->]. rewrite IH. simpl. eauto.
Qed.

Lemma series_apply_length (f : pyval -> result (option string)) :
  forall series l, series_apply f series = OK l ->
  List.length l = List.length series.
Proof.
  induction series as [|v series IH]; intros l H; simpl in H.
  - inversion H. reflexivity.
  - destruct (f v); [|discriminate]. simpl in H.
    destruct (series_apply f series) as [l'|]; [|discriminate]. simpl in H.
    inversion H. simpl. rewrite (IH l' eq_refl). reflexivity.
Qed.

(** How [enrich] builds its frame. *)
Lemma enrich_structure (df e : DataFrame) :
  enrich df = OK e ->
  exists narration name method platform,
    getitem df "Narration" = OK narration
    /\ series_apply extract_sender_receiver_name narration = OK name
    /\ series_apply extract_payment_method narration = OK method
    /\ series_apply extract_payment_platform narration = OK platform
    /\ e = setitem (setitem (setitem df "Name" name) "Payment_Method" method)
                   "Payment_Platform" platform.
Proof.
  unfold enrich. intros He.
  destruct (getitem df "Narration") as [narration|] eqn:Hn; [|discriminate].
  cbn [rbind] in He.
  destruct (series_apply extract_sender_receiver_name narration)
    as [name|] eqn:Hname; [|discriminate]. cbn [rbind] in He.
  rewrite getitem_setitem_other, Hn in He by discriminate. cbn [rbind] in He.
  destruct (series_apply extract_payment_method narration)
    as [method|] eqn:Hmethod; [|discriminate]. cbn [rbind] in He.
  rewrite !getitem_setitem_other, Hn in He by discriminate. cbn [rbind] in He.
  destruct (series_apply extract_payment_platform narration)
    as [platform|] eqn:Hplatform; [|discriminate]. cbn [rbind] in He.
  inversion He. exists narration, name, method, platform. auto.
Qed.

Lemma enrich_of_parts (df : DataFrame)
  (narration name method platform : list pyval) :
  getitem df "Narration" = OK narration ->
  series_apply extract_sender_receiver_name narration = OK name ->
  series_apply extract_payment_method narration = OK method ->
  series_apply extract_payment_platform narration = OK platform ->
  enrich df
  = OK (setitem (setitem (setitem df "Name" name) "Payment_Method" method)
                "Payment_Platform" platform).
Proof.
  intros Hn Hname Hmethod Hplatform. unfold enrich.
  rewrite Hn. cbn [rbind]. rewrite Hname. cbn [rbind].
  rewrite getitem_setitem_other, Hn by discriminate. cbn [rbind].
  rewrite Hmethod. cbn [rbind].
  rewrite !getitem_setitem_other, Hn by discriminate. cbn [rbind].
  rewrite Hplatform. reflexivity.
Qed.

Lemma enrich_total (df : DataFrame) :
  has_column "Narration" df = true -> exists e, enrich df = OK e.
Proof.
  intros H. destruct (has_column_getitem _ _ H) as [narration Hn].
  destruct (series_apply_total _ name_total narration) as [name Hname].
  destruct (series_apply_total _ method_total narration) as [method Hmethod].
  destruct (series_apply_total _ platform_total narration)
    as [platform Hplatform].
  eexists. apply (enrich_of_parts _ _ _ _ _ Hn Hname Hmethod Hplatform).
Qed.

(** X10: enrichment needs the Narration column and nothing else: where one
    column is headed Narration, enrichment never raises, whatever the cells
    hold; where none is, it raises KeyError 'Narration'. *)
Theorem enrich_needs_narration (df : DataFrame) :
  (label_count "Narration" df = 1 -> exists e, enrich df = OK e)
  /\ (has_column "Narration" df = false ->
      enrich df = Err (KeyError "Narration")).
Proof.
  split.
  - intros H. apply enrich_total, label_count_has_column, H.
  - intros H. unfold enrich. rewrite (getitem_missing _ _ H). reflexivity.
Qed.

Lemma enrich_needs_narration_witness :
  (exists e, enrich (mkFrame 2 [(PyStr "Narration", [PyNaN; PyInt 7])]) = OK e)
  /\ enrich (mkFrame 1 [(PyStr "Amount", [PyInt 7])])
     = Err (KeyError "Narration").
Proof.
  split.
  - apply (proj1 (enrich_needs_narration
                    (mkFrame 2 [(PyStr "Narration", [PyNaN; PyInt 7])]))).
    reflexivity.
  - apply (proj2 (enrich_needs_narration
                    (mkFrame 1 [(PyStr "Amount", [PyInt 7])]))).
    reflexivity.
Defined.

(** X11: enrichment touches nothing but the columns Name, Payment_Method and
    Payment_Platform: the number of rows and every other column, Narration
    and Amount among them, are as before. *)
Theorem enrich_keeps_other_columns (df e : DataFrame) (name : string) :
  enrich df = OK e ->
  name <> "Name" -> name <> "Payment_Method" -> name <> "Payment_Platform" ->
  nrows e = nrows df /\ getitem e name = getitem df name.
Proof.
  intros He H1 H2 H3.
  destruct (enrich_structure _ _ He) as (n & a & b & c & _ & _ & _ & _ & ->).
  split; [reflexivity|].
  rewrite !getitem_setitem_other by assumption. reflexivity.
Qed.

Lemma enrich_keeps_other_columns_witness :
  exists e,
    enrich (mkFrame 1 [(PyStr "Narration", [PyStr "cash wdl"]);
                       (PyStr "Amount", [PyInt 50])]) = OK e
    /\ nrows e = 1
    /\ getitem e "Amount" = OK [PyInt 50].
Proof.
  eexists. split; [vm_compute; reflexivity|].
  apply (enrich_keeps_other_columns
           (mkFrame 1 [(PyStr "Narration", [PyStr "cash wdl"]);
                       (PyStr "Amount", [PyInt 50])]) _ "Amount");
    [vm_compute; reflexivity|discriminate|discriminate|discriminate].
Defined.

Lemma set_column_wf (n : nat) (name : string) (series : list pyval) :
  List.length series = n ->
  forall cols,
    forallb (fun c => (List.length (snd c) =? n)%nat) cols = true ->
    forallb (fun c => (List.length (snd c) =? n)%nat)
            (set_column name series cols) = true.
Proof.
  intros Hs cols. induction cols as [|c cols IH]; intros H; simpl.
  - rewrite Hs, Nat.eqb_refl. reflexivity.
  - simpl in H. apply andb_true_iff in H. destruct H as [Hc H].
    destruct (label_is name (fst c)); simpl.
    + rewrite Hs, Nat.eqb_refl, H. reflexivity.
    + rewrite Hc, (IH H). reflexivity.
Qed.

Lemma wf_getitem (df : DataFrame) (name : string) (series : list pyval) :
  wf_frame df = true -> getitem df name = OK series ->
  List.length series = nrows df.
Proof.
  unfold wf_frame, getitem. intros Hwf H.
  destruct (find (fun c => label_is name (fst c)) (columns df)) as [c|] eqn:Hf;
    [|discriminate].
  inversion H; subst series. apply find_some in Hf. destruct Hf as [Hin _].
  rewrite forallb_forall in Hwf. apply Nat.eqb_eq. apply Hwf. assumption.
Qed.

Lemma setitem_wf (df : DataFrame) (name : string) (series : list pyval) :
  wf_frame df = true -> List.length series = nrows df ->
  wf_frame (setitem df name series) = true.
Proof. intros Hwf Hs. unfold wf_frame, setitem. simpl. apply set_column_wf; assumption. Qed.

(** X12: enrichment keeps a frame in shape: when every column has one cell
    for each row, so has every column afterwards, the three new ones
    included. *)
Theorem enrich_keeps_shape (df e : DataFrame) :
  wf_frame df = true -> enrich df = OK e -> wf_frame e = true.
Proof.
  intros Hwf He.
  destruct (enrich_structure _ _ He)
    as (n & a & b & c & Hn & Ha & Hb & Hc & ->).
  pose proof (wf_getitem _ _ _ Hwf Hn) as Hlen.
  apply series_apply_length in Ha, Hb, Hc.
  repeat apply setitem_wf; try assumption; simpl; congruence.
Qed.

Lemma enrich_keeps_shape_witness :
  exists e,
    enrich (mkFrame 2 [(PyStr "Narration", [PyStr "NEFT x"; PyNone]);
                       (PyStr "Name", [PyInt 1; PyInt 2])]) = OK e
    /\ wf_frame e = true.
Proof.
  eexists. split; [vm_compute; reflexivity|].
  apply (enrich_keeps_shape
           (mkFrame 2 [(PyStr "Narration", [PyStr "NEFT x"; PyNone]);
                       (PyStr "Name", [PyInt 1; PyInt 2])]));
    vm_compute; reflexivity.
Defined.

Lemma set_column_same (name : string) (series : list pyval) :
  forall cols l,
    find (fun c => label_is name (fst c)) cols = Some (l, series) ->
    set_column name series cols = cols.
Proof.
  induction cols as [|c cols IH]; intros l H; simpl in *; [discriminate|].
  destruct (label_is name (fst c)).
  - inversion H; subst c. reflexivity.
  - rewrite (IH _ H). reflexivity.
Qed.

Lemma setitem_same (df : DataFrame) (name : string) (series : list pyval) :
  getitem df name = OK series -> setitem df name series = df.
Proof.
  unfold getitem, setitem. intros H.
  destruct (find (fun c => label_is name (fst c)) (columns df))
    as [[l s]|] eqn:Hf; [|discriminate].
  inversion H; subst s. rewrite (set_column_same _ _ _ _ Hf).
  destruct df; reflexivity.
Qed.

(** X13: enriching twice is enriching once: on a frame that is already
    enriched the three columns are computed again from the same narrations
    and replaced by themselves. *)
Theorem enrich_idempotent (df e : DataFrame) :
  enrich df = OK e -> enrich e = OK e.
Proof.
  intros He.
  destruct (enrich_structure _ _ He)
    as (n & a & b & c & Hn & Ha & Hb & Hc & Heq).
  assert (Hn' : getitem e "Narration" = OK n)
    by (subst e; rewrite !getitem_setitem_other by discriminate; exact Hn).
  assert (Ha' : getitem e "Name" = OK a)
    by (subst e; rewrite !getitem_setitem_other by discriminate;
        apply getitem_setitem_same).
  assert (Hb' : getitem e "Payment_Method" = OK b)
    by (subst e; rewrite getitem_setitem_other by discriminate;
        apply getitem_setitem_same).
  assert (Hc' : getitem e "Payment_Platform" = OK c)
    by (subst e; apply getitem_setitem_same).
  rewrite (enrich_of_parts _ _ _ _ _ Hn' Ha Hb Hc).
  rewrite (setitem_same _ _ _ Ha'), (setitem_same _ _ _ Hb'),
    (setitem_same _ _ _ Hc'). reflexivity.
Qed.

Lemma enrich_idempotent_witness :
  exists e,
    enrich (mkFrame 1 [(PyStr "Narration", [PyStr "UPI to JOHN SMITH"])]) = OK e
    /\ enrich e = OK e.
Proof.
  eexists. split; [vm_compute; reflexivity|].
  apply (enrich_idempotent
           (mkFrame 1 [(PyStr "Narration", [PyStr "UPI to JOHN SMITH"])])).
  vm_compute. reflexivity.
Defined.

(** ** The total of a column with text in it *)

Lemma getitem_has_column (df : DataFrame) (name : string)
  (series : list pyval) :
  getitem df name = OK series -> has_column name df = true.
Proof.
  intros H. destruct (has_column name df) eqn:Hc; [reflexivity|].
  rewrite (getitem_missing _ _ Hc) in H. discriminate.
Qed.

Lemma reduce_add_number_text (l : list pyval) :
  existsb is_text l = true ->
  forall a, reduce_add (PyInt a) (map fill_zero l)
            = Err (TypeError "unsupported operand type(s) for +").
Proof.
  induction l as [|v l IH]; intros H a; [discriminate|].
  destruct v; simpl in *; try reflexivity; apply IH; assumption.
Qed.

Lemma reduce_add_text_number (l : list pyval) :
  existsb number_or_missing l = true ->
  forall a, reduce_add (PyStr a) (map fill_zero l)
            = Err (TypeError "unsupported operand type(s) for +").
Proof.
  induction l as [|v l IH]; intros H a; [discriminate|].
  destruct v; simpl in *; try reflexivity; apply IH; assumption.
Qed.

Lemma concat_cons (x : string) (l : list string) :
  String.concat "" (x :: l) = x ++ String.concat "" l.
Proof. destruct l; simpl; [rewrite append_nil_r|]; reflexivity. Qed.

Lemma reduce_add_texts (l : list pyval) :
  forallb is_text l = true ->
  forall a, reduce_add (PyStr a) (map fill_zero l)
            = OK (PyStr (a ++ String.concat "" (map text_of l))).
Proof.
  induction l as [|v l IH]; intros H a.
  - simpl. rewrite append_nil_r. reflexivity.
  - destruct v; try discriminate. simpl in H.
    change (map text_of (PyStr s :: l)) with (s :: map text_of l).
    rewrite concat_cons. simpl. rewrite (IH H), append_assoc. reflexivity.
Qed.

Lemma int_is_number (l : list pyval) :
  existsb is_int l = true -> existsb number_or_missing l = true.
Proof.
  induction l as [|v l IH]; simpl; [discriminate|].
  intros H. apply orb_true_iff in H. apply orb_true_iff.
  destruct H as [H|H]; [left; destruct v; simpl in *; congruence|auto].
Qed.

Lemma all_text_some_text (l : list pyval) :
  l <> [] -> forallb is_text l = true -> existsb is_text l = true.
Proof.
  destruct l as [|v l]; [congruence|]. simpl. intros _ H.
  apply andb_true_iff in H. destruct H as [-> _]. reflexivity.
Qed.

(** X14: nothing in the total tells text from numbers.  Where one column is
    headed Amount, and it holds a text cell together with an integer cell, it
    has no total: adding them raises TypeError.  An Amount column of text
    cells only has the cells joined as its total, not a number. *)
Theorem total_amount_with_text (df : DataFrame) (amounts : list pyval) :
  label_count "Amount" df = 1 ->
  getitem df "Amount" = OK amounts ->
  (existsb is_text amounts = true ->
   existsb is_int amounts = true ->
   exists message, total_amount df = Err (TypeError message))
  /\ (amounts <> [] -> forallb is_text amounts = true ->
      total_amount df = OK (PyStr (String.concat "" (map text_of amounts)))).
Proof.
  intros _ Ha. unfold total_amount.
  rewrite (getitem_has_column _ _ _ Ha), Ha. cbn [rbind]. unfold series_sum.
  split.
  - intros Ht Hn. rewrite Ht. eexists.
    destruct amounts as [|v l]; [discriminate|].
    destruct v; simpl in Ht, Hn; cbn [map fill_zero notnull];
      try (apply reduce_add_number_text; assumption).
    apply reduce_add_text_number, int_is_number; assumption.
  - intros Hne Ht. rewrite (all_text_some_text _ Hne Ht).
    destruct amounts as [|v l]; [congruence|].
    destruct v; try discriminate. simpl in Ht. cbn [map fill_zero notnull].
    rewrite (reduce_add_texts _ Ht).
    change (map text_of (PyStr s :: l)) with (s :: map text_of l).
    rewrite concat_cons. reflexivity.
Qed.

Lemma total_amount_with_text_witness :
  (exists message,
      total_amount (mkFrame 2 [(PyStr "Amount", [PyStr "1,000"; PyInt 5])])
      = Err (TypeError message))
  /\ total_amount (mkFrame 2 [(PyStr "Amount", [PyStr "100"; PyStr "50"])])
     = OK (PyStr "10050").
Proof.
  split.
  - apply (proj1 (total_amount_with_text
                    (mkFrame 2 [(PyStr "Amount", [PyStr "1,000"; PyInt 5])])
                    [PyStr "1,000"; PyInt 5] eq_refl eq_refl)); reflexivity.
  - apply (proj2 (total_amount_with_text
                    (mkFrame 2 [(PyStr "Amount", [PyStr "100"; PyStr "50"])])
                    [PyStr "100"; PyStr "50"] eq_refl eq_refl));
      [discriminate|reflexivity].
Defined.

(** ** Cash withdrawals *)




(** ** What [main] shows *)

Section MainShows.

Variable read_csv : string -> result DataFrame.
Variable sheet_rows : string -> result (list (list pyval)).

(** The part of [main] after a frame has been bound to [df]. *)
Lemma main_with_frame (f : upload) (df : DataFrame) :
  load_frame read_csv sheet_rows f = ([], OK (Some df)) ->
  main read_csv sheet_rows (Some f)
  = StTitle "Upload Transaction File"
    :: StWriteType "Uploaded File Type:" (file_type f)
    :: match total_amount df with
       | Err e => [StErrorProcessing e]
       | OK total =>
           match enrich df with
           | Err e => [StErrorProcessing e]
           | OK e => [StSubheader "Extracted Information"; StWriteFrame e;
                      StTotalAmount total]
           end
       end.
Proof.
  intros Hl. unfold main, main_body, try_except, pbind, emit, plift.
  rewrite Hl. cbn [fst snd load_local app].
  destruct (total_amount df) as [total|e]; cbn [fst snd app]; [|reflexivity].
  destruct (enrich df) as [e'|e]; reflexivity.
Qed.

Lemma main_load_error (f : upload) (e : exn) :
  load_frame read_csv sheet_rows f = ([], Err e) ->
  main read_csv sheet_rows (Some f)
  = [ StTitle "Upload Transaction File";
      StWriteType "Uploaded File Type:" (file_type f);
      StErrorProcessing e ].
Proof.
  intros Hl. unfold main, main_body, try_except, pbind, emit.
  rewrite Hl. reflexivity.
Qed.

Lemma load_csv (bytes : string) :
  load_frame read_csv sheet_rows (mkUpload csv_type bytes)
  = match read_csv bytes with
    | OK df => ([], OK (Some df))
    | Err e => ([], Err e)
    end.
Proof.
  unfold load_frame, pbind, plift, pret. simpl.
  destruct (read_csv bytes); reflexivity.
Qed.

Lemma load_xlsx (bytes : string) :
  load_frame read_csv sheet_rows (mkUpload xlsx_type bytes)
  = match process_excel_file sheet_rows (mkUpload xlsx_type bytes) with
    | OK df => ([], OK (Some df))
    | Err e => ([], Err e)
    end.
Proof.
  unfold load_frame, pbind, plift, pret.
  cbn [file_type]. replace (String.eqb xlsx_type csv_type) with false by reflexivity.
  rewrite String.eqb_refl. cbn [fst snd].
  destruct (process_excel_file sheet_rows _); reflexivity.
Qed.

(** X16: when the parser of a tabular upload fails, for csv the decoding or
    parsing of pandas, for a sheet the loading of the workbook, the page
    shows that exception as its one error and nothing else; a workbook whose
    sheet has no rows at all fails in the same way, with the IndexError of
    reading its header row. *)
Theorem parser_failure_shown_once (bytes : string) (e : exn) :
  (read_csv bytes = Err e ->
   main read_csv sheet_rows (Some (mkUpload csv_type bytes))
   = [ StTitle "Upload Transaction File";
       StWriteType "Uploaded File Type:" csv_type;
       StErrorProcessing e ])
  /\ (sheet_rows bytes = Err e ->
      main read_csv sheet_rows (Some (mkUpload xlsx_type bytes))
      = [ StTitle "Upload Transaction File";
          StWriteType "Uploaded File Type:" xlsx_type;
          StErrorProcessing e ])
  /\ (sheet_rows bytes = OK [] ->
      main read_csv sheet_rows (Some (mkUpload xlsx_type bytes))
      = [ StTitle "Upload Transaction File";
          StWriteType "Uploaded File Type:" xlsx_type;
          StErrorProcessing (IndexError "list index out of range") ]).
Proof.
  split; [|split]; intros H; apply main_load_error.
  - rewrite load_csv, H. reflexivity.
  - rewrite load_xlsx. unfold process_excel_file. cbn [file_bytes].
    rewrite H. reflexivity.
  - rewrite load_xlsx. unfold process_excel_file. cbn [file_bytes].
    rewrite H. reflexivity.
Qed.

(** X17: whatever is uploaded, by the time [main] has passed the total (line
    122) the page shows, after the title and the declared type, exactly one
    of three things: one processing error; the 'Unsupported file format'
    notice followed by one processing error; or the heading, the enriched
    table and the total.  Up to there a table is never shown after an error,
    and never more than once. *)
Theorem main_shows_error_or_table (f : upload) :
  let shown := main read_csv sheet_rows (Some f) in
  (exists e,
      shown = [ StTitle "Upload Transaction File";
                StWriteType "Uploaded File Type:" (file_type f);
                StErrorProcessing e ])
  \/ shown = [ StTitle "Upload Transaction File";
               StWriteType "Uploaded File Type:" (file_type f);
               StError "Unsupported file format";
               StErrorProcessing (UnboundLocalError "df") ]
  \/ (exists e total,
         shown = [ StTitle "Upload Transaction File";
                   StWriteType "Uploaded File Type:" (file_type f);
                   StSubheader "Extracted Information";
                   StWriteFrame e;
                   StTotalAmount total ]).
Proof.
  intros shown. subst shown.
  assert (Hframe : forall df,
             load_frame read_csv sheet_rows f = ([], OK (Some df)) ->
             (exists e, main read_csv sheet_rows (Some f)
                        = [ StTitle "Upload Transaction File";
                            StWriteType "Uploaded File Type:" (file_type f);
                            StErrorProcessing e ])
             \/ (exists e total,
                    main read_csv sheet_rows (Some f)
                    = [ StTitle "Upload Transaction File";
                        StWriteType "Uploaded File Type:" (file_type f);
                        StSubheader "Extracted Information";
                        StWriteFrame e;
                        StTotalAmount total ])).
  { intros df Hl. rewrite (main_with_frame _ _ Hl).
    destruct (total_amount df) as [total|e]; [|left; eauto].
    destruct (enrich df) as [e'|e]; [right|left]; eauto. }
  assert (Hcases :
            (exists df, load_frame read_csv sheet_rows f = ([], OK (Some df)))
            \/ (exists e, load_frame read_csv sheet_rows f = ([], Err e))
            \/ supported (file_type f) = false).
  { unfold load_frame, supported, pbind, plift, pret, call_global,
      process_pdf_file, process_docx_file.
    destruct (String.eqb (file_type f) csv_type).
    - destruct (read_csv (file_bytes f)); cbn; eauto.
    - destruct (String.eqb (file_type f) xlsx_type).
      + destruct (process_excel_file sheet_rows f); cbn; eauto.
      + destruct (String.eqb (file_type f) pdf_type); [cbn; eauto|].
        destruct (String.eqb (file_type f) docx_type); cbn; eauto. }
  destruct Hcases as [[df Hl]|[[e Hl]|Hu]].
  - destruct (Hframe df Hl) as [H|H]; auto.
  - left. exists e. apply main_load_error. assumption.
  - right. left. clear Hframe. unfold supported in Hu.
    apply orb_false_iff in Hu. destruct Hu as [Hu Hdocx].
    apply orb_false_iff in Hu. destruct Hu as [Hu Hpdf].
    apply orb_false_iff in Hu. destruct Hu as [Hcsv Hxlsx].
    unfold main, main_body, load_frame.
    rewrite Hcsv, Hxlsx, Hpdf, Hdocx. reflexivity.
Qed.

(** X18: a csv that pandas parses into a frame with a Narration column and
    whose total can be computed gets as far as the total (line 122) without
    an error: the page shows the heading, the enriched frame with as many
    rows as were loaded, and the total. *)
Theorem csv_shown_whole (bytes : string) (df : DataFrame) (total : pyval) :
  read_csv bytes = OK df ->
  has_column "Narration" df = true ->
  total_amount df = OK total ->
  exists e,
    enrich df = OK e /\ nrows e = nrows df
    /\ main read_csv sheet_rows (Some (mkUpload csv_type bytes))
       = [ StTitle "Upload Transaction File";
           StWriteType "Uploaded File Type:" csv_type;
           StSubheader "Extracted Information";
           StWriteFrame e;
           StTotalAmount total ].
Proof.
  intros Hr Hn Ht. destruct (enrich_total _ Hn) as [e He].
  exists e. split; [assumption|]. split.
  - destruct (enrich_structure _ _ He) as (n & a & b & c & _ & _ & _ & _ & ->).
    reflexivity.
  - rewrite (main_with_frame _ df) by (rewrite load_csv, Hr; reflexivity).
    rewrite Ht, He. reflexivity.
Qed.

(** X19: a csv without a Narration column is not shown at all: the total is
    worked out first, but then enrichment raises KeyError 'Narration', and
    that error is all the page shows. *)
Theorem csv_without_narration (bytes : string) (df : DataFrame)
  (total : pyval) :
  read_csv bytes = OK df ->
  has_column "Narration" df = false ->
  total_amount df = OK total ->
  main read_csv sheet_rows (Some (mkUpload csv_type bytes))
  = [ StTitle "Upload Transaction File";
      StWriteType "Uploaded File Type:" csv_type;
      StErrorProcessing (KeyError "Narration") ].
Proof.
  intros Hr Hn Ht.
  rewrite (main_with_frame _ df) by (rewrite load_csv, Hr; reflexivity).
  rewrite Ht. unfold enrich. rewrite (getitem_missing _ _ Hn). reflexivity.
Qed.

End MainShows.

Lemma parser_failure_shown_once_witness :
  main (fun _ => Err (ValueError "utf-8")) (fun _ => OK []) 
       (Some (mkUpload csv_type "x"))
  = [ StTitle "Upload Transaction File";
      StWriteType "Uploaded File Type:" csv_type;
      StErrorProcessing (ValueError "utf-8") ]
  /\ main (fun _ => Err (ValueError "utf-8")) (fun _ => OK [])
          (Some (mkUpload xlsx_type "x"))
     = [ StTitle "Upload Transaction File";
         StWriteType "Uploaded File Type:" xlsx_type;
         StErrorProcessing (IndexError "list index out of range") ].
Proof.
  destruct (parser_failure_shown_once
              (fun _ => Err (ValueError "utf-8")) (fun _ => OK [])
              "x" (ValueError "utf-8")) as (Hcsv & _ & Hempty).
  split; [apply Hcsv|apply Hempty]; reflexivity.
Defined.

Lemma csv_shown_whole_witness :
  exists e,
    enrich (mkFrame 1 [(PyStr "Narration", [PyStr "cash wdl"])]) = OK e
    /\ nrows e = 1
    /\ main (fun _ => OK (mkFrame 1 [(PyStr "Narration", [PyStr "cash wdl"])]))
            (fun _ => OK []) (Some (mkUpload csv_type "Narration
cash wdl
"))
       = [ StTitle "Upload Transaction File";
           StWriteType "Uploaded File Type:" csv_type;
           StSubheader "Extracted Information";
           StWriteFrame e;
           StTotalAmount unavailable ].
Proof.
  apply (csv_shown_whole
           (fun _ => OK (mkFrame 1 [(PyStr "Narration", [PyStr "cash wdl"])]))
           (fun _ => OK []) _
           (mkFrame 1 [(PyStr "Narration", [PyStr "cash wdl"])]) unavailable);
    reflexivity.
Defined.

Lemma csv_without_narration_witness :
  main (fun _ => OK (mkFrame 1 [(PyStr "Description", [PyStr "cash wdl"])]))
       (fun _ => OK []) (Some (mkUpload csv_type "Description
cash wdl
"))
  = [ StTitle "Upload Transaction File";
      StWriteType "Uploaded File Type:" csv_type;
      StErrorProcessing (KeyError "Narration") ].
Proof.
  apply (csv_without_narration
           (fun _ => OK (mkFrame 1 [(PyStr "Description", [PyStr "cash wdl"])]))
           (fun _ => OK []) _
           (mkFrame 1 [(PyStr "Description", [PyStr "cash wdl"])]) unavailable);
    reflexivity.
Defined.
